(** * FIS: a session wrapper around a fuzzy-logic engine

    Shallow embedding of [src/FIS.py] (class [FIS]) and the properties of
    its membership-function synthesizers, its variable builders and its
    engine-assembly and inference methods.

    Numbers.  The Python code computes on [int] and [float] values, and
    its arithmetic rounds, overflows and raises.  The synthesizers are
    embedded three times.  [Module Py] has them over any arithmetic whose
    operations may raise, with Python's own [int] and [float] as an
    instance: general statements about the synthesizers are proved
    there.  [Module Binary64] has the triangular and trapezoid
    synthesizers on binary64 operands, for evaluating concrete calls.
    The top-level definitions read the same formulas over exact
    rationals ([Q], compared with [==]): rounding, overflow and the
    exceptions of the arithmetic are absent from that reading, which
    serves the variable builders and statements about exact values. *)

From Stdlib Require Import QArith Lqa Lia String.
From Stdlib Require Floats.
From stdpp Require Import base option list.

Local Open Scope string_scope.
Local Open Scope list_scope.
Local Open Scope Q_scope.

(** ** Exceptions and results *)

(** The Python exceptions the modelled code can raise.  [EngineError]
    stands for whatever the external engine raises (rule compilation,
    evaluation). *)
Inductive exn : Type :=
  | ValueError (msg : string)
  | ZeroDivisionError
  | IndexError
  | AttributeError
  | OverflowError
  | EngineError (msg : string).

Inductive Result (A : Type) : Type :=
  | Ok (a : A)
  | Raise (e : exn).
Arguments Ok {A} a.
Arguments Raise {A} e.

Definition Result_bind {A B} (r : Result A) (k : A -> Result B) : Result B :=
  match r with
  | Ok a => k a
  | Raise e => Raise e
  end.

(** ** Terms *)

(** The membership functions the code constructs:
    [fl.Triangle(label, a, b, c)], [fl.Trapezoid(label, a, b, c, d)] and
    [fl.Gaussian(label, mean, std_dev)]. *)
Inductive Term : Type :=
  | Triangle (label : string) (a b c : Q)
  | Trapezoid (label : string) (a b c d : Q)
  | Gaussian (label : string) (mean std_dev : Q).

Definition term_name (t : Term) : string :=
  match t with
  | Triangle l _ _ _ => l
  | Trapezoid l _ _ _ _ => l
  | Gaussian l _ _ => l
  end.

(** An [int] loop index used in float arithmetic. *)
Definition of_nat (i : nat) : Q := inject_Z (Z.of_nat i).

(** ** Membership-function synthesizers *)

(** The formulas of the synthesizers over exact rationals.  The only
    exception of this reading is the division by zero labels. *)

(** Body of the [for i, label in enumerate(labels)] loop of
    [_create_triangular_mf]. *)
Definition triangular_term (n : nat) (minimum maximum step overlap : Q)
    (i : nat) (label : string) : Term :=
  if Nat.eqb i 0 then
    let a := minimum in
    let b := minimum in
    let c := minimum + step * (1 + overlap) in
    Triangle label a b c
  else if Nat.eqb i (n - 1) then
    let a := minimum + step * (of_nat i - overlap) in
    let b := maximum in
    let c := maximum in
    Triangle label a b c
  else
    let a := minimum + step * (of_nat i + 0 - overlap) in
    let c := minimum + step * (of_nat i + 1 + overlap) in
    let b := (1 # 2) * (c + a) in
    Triangle label a b c.

(** [step = range_size / n] raises [ZeroDivisionError] when [labels] is
    empty. *)
Definition _create_triangular_mf (labels : list string)
    (minimum maximum overlap : Q) : Result (list Term) :=
  let n := length labels in
  let range_size := maximum - minimum in
  if Nat.eqb n 0 then Raise ZeroDivisionError else
  let step := range_size / of_nat n in
  Ok (imap (triangular_term n minimum maximum step overlap) labels).

(** Loop body of [_create_trapezoid_mf]. *)
Definition trapezoid_term (n : nat) (minimum maximum step ratio overlap : Q)
    (i : nat) (label : string) : Term :=
  if Nat.eqb i 0 then
    let a := minimum in
    let b := minimum in
    let d := minimum + step * (1 + overlap) in
    let half_top := ratio * (d - a) in
    let c := minimum + half_top in
    Trapezoid label a b c d
  else if Nat.eqb i (n - 1) then
    let a := minimum + step * (of_nat i - overlap) in
    let c := maximum in
    let d := maximum in
    let b := (a + d) * ratio in
    Trapezoid label a b c d
  else
    let a := minimum + step * (of_nat i + 0 - overlap) in
    let d := minimum + step * (of_nat i + 1 + overlap) in
    let mid := (d + a) * (1 # 2) in
    let half_top := ratio * (d - a) * (1 # 2) in
    let b := mid - half_top in
    let c := mid + half_top in
    Trapezoid label a b c d.

Definition _create_trapezoid_mf (labels : list string)
    (minimum maximum ratio overlap : Q) : Result (list Term) :=
  let n := length labels in
  let range_size := maximum - minimum in
  if Nat.eqb n 0 then Raise ZeroDivisionError else
  let step := range_size / of_nat n in
  Ok (imap (trapezoid_term n minimum maximum step ratio overlap) labels).

(** Loop body of [_create_gaussian_mf]. *)
Definition gaussian_term (n : nat) (minimum maximum step overlap : Q)
    (i : nat) (label : string) : Term :=
  if Nat.eqb i 0 then
    let c := minimum + step * (1 + overlap) in
    let mean := minimum in
    let std_dev := (mean - c) / 3 in
    Gaussian label mean std_dev
  else if Nat.eqb i (n - 1) then
    let a := minimum + step * (of_nat i - overlap) in
    let mean := maximum in
    let std_dev := (mean - a) / 3 in
    Gaussian label mean std_dev
  else
    let a := minimum + step * (of_nat i + 0 - overlap) in
    let c := minimum + step * (of_nat i + 1 + overlap) in
    let b := (1 # 2) * (c + a) in
    let mean := b in
    let std_dev := (mean - c) / 3 in
    Gaussian label mean std_dev.

Definition _create_gaussian_mf (labels : list string)
    (minimum maximum overlap : Q) : Result (list Term) :=
  let n := length labels in
  let range_size := maximum - minimum in
  if Nat.eqb n 0 then Raise ZeroDivisionError else
  let step := range_size / of_nat n in
  Ok (imap (gaussian_term n minimum maximum step overlap) labels).

(** ** The same synthesizers over binary64 *)

(** Python's [float] is IEEE-754 binary64, which is Rocq's primitive
    [float].  The loop bodies below are those of the source once more,
    with the operations of [PrimFloat]. *)
Module Binary64.
Import Floats.
Local Open Scope float_scope.

Inductive FTerm : Type :=
  | FTriangle (label : string) (a b c : float)
  | FTrapezoid (label : string) (a b c d : float).

Definition of_nat (i : nat) : float :=
  PrimFloat.of_uint63 (Uint63.of_Z (Z.of_nat i)).

(** The value of the Python expression [p / q] on two small integers. *)
Definition frac (p q : nat) : float := of_nat p / of_nat q.

Definition triangular_term (n : nat) (minimum maximum step overlap : float)
    (i : nat) (label : string) : FTerm :=
  if Nat.eqb i 0 then
    let a := minimum in
    let b := minimum in
    let c := minimum + step * (1 + overlap) in
    FTriangle label a b c
  else if Nat.eqb i (n - 1) then
    let a := minimum + step * (of_nat i - overlap) in
    let b := maximum in
    let c := maximum in
    FTriangle label a b c
  else
    let a := minimum + step * (of_nat i + 0 - overlap) in
    let c := minimum + step * (of_nat i + 1 + overlap) in
    let b := 0.5 * (c + a) in
    FTriangle label a b c.

Definition _create_triangular_mf (labels : list string)
    (minimum maximum overlap : float) : Result (list FTerm) :=
  let n := length labels in
  let range_size := maximum - minimum in
  if Nat.eqb n 0 then Raise ZeroDivisionError else
  let step := range_size / of_nat n in
  Ok (imap (triangular_term n minimum maximum step overlap) labels).

Definition trapezoid_term (n : nat)
    (minimum maximum step ratio overlap : float)
    (i : nat) (label : string) : FTerm :=
  if Nat.eqb i 0 then
    let a := minimum in
    let b := minimum in
    let d := minimum + step * (1 + overlap) in
    let half_top := ratio * (d - a) in
    let c := minimum + half_top in
    FTrapezoid label a b c d
  else if Nat.eqb i (n - 1) then
    let a := minimum + step * (of_nat i - overlap) in
    let c := maximum in
    let d := maximum in
    let b := (a + d) * ratio in
    FTrapezoid label a b c d
  else
    let a := minimum + step * (of_nat i + 0 - overlap) in
    let d := minimum + step * (of_nat i + 1 + overlap) in
    let mid := (d + a) * 0.5 in
    let half_top := ratio * (d - a) * 0.5 in
    let b := mid - half_top in
    let c := mid + half_top in
    FTrapezoid label a b c d.

Definition _create_trapezoid_mf (labels : list string)
    (minimum maximum ratio overlap : float) : Result (list FTerm) :=
  let n := length labels in
  let range_size := maximum - minimum in
  if Nat.eqb n 0 then Raise ZeroDivisionError else
  let step := range_size / of_nat n in
  Ok (imap (trapezoid_term n minimum maximum step ratio overlap) labels).

(** [x <= y] on floats, as Python's comparison. *)
Definition le (x y : float) : bool := PrimFloat.leb x y.

End Binary64.

(** ** Variables *)

(** Operator objects of the engine library; only their identity matters
    here. *)
Inductive TNorm : Type := Minimum | AlgebraicProduct.
Inductive SNorm : Type := Maximum | AlgebraicSum.
Inductive Activation : Type := General.
Inductive Defuzzifier : Type := Centroid (resolution : nat).

(** [fl.Variable]: what [fl.InputVariable] and [fl.OutputVariable] share.
    [value] is the variable's numeric slot; a freshly constructed variable
    holds [nan], rendered as [None]. *)
Record FlVariable : Type := mkVariable {
  name : string;
  description : string;
  enabled : bool;
  minimum : Q;
  maximum : Q;
  lock_range : bool;
  terms : list Term;
  value : option Q
}.

Definition InputVariable : Type := FlVariable.

Record OutputVariable : Type := mkOutputVariable {
  base :> FlVariable;
  aggregation : option SNorm;
  defuzzifier : option Defuzzifier
}.

(** [fl.InputVariable(name=..., ..., terms=...)] *)
Definition new_InputVariable (name description : string) (enabled : bool)
    (minimum maximum : Q) (lock_range : bool) (terms : list Term)
    : InputVariable :=
  mkVariable name description enabled minimum maximum lock_range terms None.

(** [fl.OutputVariable(name=..., ..., terms=...)] *)
Definition new_OutputVariable (name description : string) (enabled : bool)
    (minimum maximum : Q) (lock_range : bool)
    (aggregation : option SNorm) (defuzzifier : option Defuzzifier)
    (terms : list Term) : OutputVariable :=
  mkOutputVariable
    (mkVariable name description enabled minimum maximum lock_range terms None)
    aggregation defuzzifier.

(** [auto_mf_type == "..."] on an argument that may be [None]. *)
Definition shape_is (auto_mf_type : option string) (kind : string) : bool :=
  match auto_mf_type with
  | Some s => String.eqb s kind
  | None => false
  end.

Definition is_None {A} (o : option A) : bool :=
  match o with
  | None => true
  | Some _ => false
  end.

Definition missing_terms_msg : string :=
  "If none membership functions is declared, terms need to be added.".

(** [create_input_variable].  The result is [Ok None] when the body runs
    off its end without a [return]. *)
Definition create_input_variable
    (variable_name variable_description : string) (enable : bool)
    (variable_minimum variable_maximum ratio : Q) (lock_range : bool)
    (variable_labels : list string) (auto_mf_type : option string)
    (terms : option (list Term)) (overlap : Q)
    : Result (option InputVariable) :=
  let build ts :=
    new_InputVariable variable_name variable_description enable
      variable_minimum variable_maximum lock_range ts in
  if is_None auto_mf_type && is_None terms then
    Raise (ValueError missing_terms_msg)
  else if is_None auto_mf_type && negb (is_None terms) then
    Ok (Some (build (default [] terms)))
  else if shape_is auto_mf_type "triangular" then
    Result_bind
      (_create_triangular_mf variable_labels variable_minimum
         variable_maximum overlap)
      (fun ts => Ok (Some (build ts)))
  else if shape_is auto_mf_type "gaussian" then
    Result_bind
      (_create_gaussian_mf variable_labels variable_minimum
         variable_maximum overlap)
      (fun ts => Ok (Some (build ts)))
  else if shape_is auto_mf_type "trapezoid" then
    Result_bind
      (_create_trapezoid_mf variable_labels variable_minimum
         variable_maximum ratio overlap)
      (fun ts => Ok (Some (build ts)))
  else Ok None.

(** [create_output_variable] *)
Definition create_output_variable
    (variable_name variable_description : string) (enable : bool)
    (variable_minimum variable_maximum ratio : Q) (lock_range : bool)
    (aggregation : option SNorm) (defuzzifier : option Defuzzifier)
    (variable_labels : list string) (auto_mf_type : option string)
    (terms : option (list Term)) (overlap : Q)
    : Result (option OutputVariable) :=
  let build ts :=
    new_OutputVariable variable_name variable_description enable
      variable_minimum variable_maximum lock_range aggregation defuzzifier
      ts in
  if is_None auto_mf_type && is_None terms then
    Raise (ValueError missing_terms_msg)
  else if is_None auto_mf_type && negb (is_None terms) then
    Ok (Some (build (default [] terms)))
  else if shape_is auto_mf_type "triangular" then
    Result_bind
      (_create_triangular_mf variable_labels variable_minimum
         variable_maximum overlap)
      (fun ts => Ok (Some (build ts)))
  else if shape_is auto_mf_type "gaussian" then
    Result_bind
      (_create_gaussian_mf variable_labels variable_minimum
         variable_maximum overlap)
      (fun ts => Ok (Some (build ts)))
  else if shape_is auto_mf_type "trapezoid" then
    Result_bind
      (_create_trapezoid_mf variable_labels variable_minimum
         variable_maximum ratio overlap)
      (fun ts => Ok (Some (build ts)))
  else Ok None.

(** ** Engine and session state *)

(** A compiled rule; the parsed form belongs to the engine library. *)
Record Rule : Type := mkRule { text : string }.

Record RuleBlock : Type := mkRuleBlock {
  rb_name : string;
  rb_description : string;
  rb_enabled : bool;
  conjunction : option TNorm;
  disjunction : option SNorm;
  implication : option TNorm;
  activation : option Activation;
  rules : list Rule
}.

(** Rule blocks are mutable objects that the session and the engine may
    both reference: they live in a store and are referred to by address.
    A reference may be [None] (Python's [None]). *)
Definition loc : Type := nat.

Record Engine : Type := mkEngine {
  engine_name : string;
  engine_description : string;
  input_variables : list InputVariable;
  output_variables : list OutputVariable;
  rule_blocks : list (option loc)
}.

Record FIS : Type := mkFIS {
  engine : Engine;
  rule_block : option loc;
  output : option Q;
  store : list RuleBlock
}.

(** Methods run in a state monad over [FIS]; a raised exception keeps the
    mutations made before it. *)
Definition M (A : Type) : Type := FIS -> FIS * Result A.

Definition ret {A} (a : A) : M A := fun s => (s, Ok a).
Definition raise {A} (e : exn) : M A := fun s => (s, Raise e).
Definition bind {A B} (m : M A) (k : A -> M B) : M B :=
  fun s =>
    match m s with
    | (s', Ok a) => k a s'
    | (s', Raise e) => (s', Raise e)
    end.
Definition get : M FIS := fun s => (s, Ok s).
Definition put (s : FIS) : M unit := fun _ => (s, Ok tt).
Definition modify (f : FIS -> FIS) : M unit := fun s => (f s, Ok tt).

Notation "x <- m ;; k" := (bind m (fun x => k))
  (at level 100, m at next level, right associativity).
Notation "m ;;; k" := (bind m (fun _ => k))
  (at level 100, right associativity).

Definition set_engine (e : Engine) (s : FIS) : FIS :=
  mkFIS e (rule_block s) (output s) (store s).
Definition set_rule_block (r : option loc) (s : FIS) : FIS :=
  mkFIS (engine s) r (output s) (store s).
Definition set_output (o : option Q) (s : FIS) : FIS :=
  mkFIS (engine s) (rule_block s) o (store s).
Definition set_store (h : list RuleBlock) (s : FIS) : FIS :=
  mkFIS (engine s) (rule_block s) (output s) h.

Definition set_input_variables (l : list InputVariable) (e : Engine) : Engine :=
  mkEngine (engine_name e) (engine_description e) l (output_variables e)
    (rule_blocks e).
Definition set_output_variables (l : list OutputVariable) (e : Engine) : Engine :=
  mkEngine (engine_name e) (engine_description e) (input_variables e) l
    (rule_blocks e).
Definition set_rule_blocks (l : list (option loc)) (e : Engine) : Engine :=
  mkEngine (engine_name e) (engine_description e) (input_variables e)
    (output_variables e) l.

Definition set_rules (rs : list Rule) (b : RuleBlock) : RuleBlock :=
  mkRuleBlock (rb_name b) (rb_description b) (rb_enabled b) (conjunction b)
    (disjunction b) (implication b) (activation b) rs.

(** [FIS.__init__] *)
Definition __init__ (name description : string) : FIS :=
  mkFIS (mkEngine name description [] [] []) None (Some 0) [].

(** [create_rule_block]: a new [fl.RuleBlock] object is allocated and
    [self.rule_block] is pointed at it. *)
Definition create_rule_block (rule_name rule_description : string)
    (enabled : bool) (rule_conjunction : option TNorm)
    (rule_disjunction : option SNorm) (rule_implication : option TNorm)
    (rule_activation : option Activation) (rules : option (list Rule))
    : M unit :=
  fun s =>
    let block :=
      mkRuleBlock rule_name rule_description enabled rule_conjunction
        rule_disjunction rule_implication rule_activation
        (default [] rules) in
    let l := length (store s) in
    (set_rule_block (Some l) (set_store (store s ++ [block]) s), Ok tt).

(** [add_rule_block] *)
Definition add_rule_block : M unit :=
  modify (fun s =>
    set_engine
      (set_rule_blocks (rule_blocks (engine s) ++ [rule_block s]) (engine s))
      s).

(** [_is_valid_variable_name]; [name_of] reads the [.name] attribute of an
    element of the given collection. *)
Fixpoint _is_valid_variable_name {V} (name_of : V -> string)
    (variable_name : string) (set_variable_name : list V) : bool :=
  match set_variable_name with
  | [] => true
  | v :: rest =>
      if String.eqb (name_of v) variable_name then false
      else _is_valid_variable_name name_of variable_name rest
  end.

Definition duplicate_name_msg : string :=
  "variable_name's need to be different.".

(** [add_input_variable] *)
Definition add_input_variable (variable : InputVariable) : M unit :=
  s <- get ;;
  if negb (_is_valid_variable_name name (name variable)
             (input_variables (engine s)))
  then raise (ValueError duplicate_name_msg)
  else
    put (set_engine
           (set_input_variables (input_variables (engine s) ++ [variable])
              (engine s)) s).

(** [add_output_variable] *)
Definition add_output_variable (variable : OutputVariable) : M unit :=
  s <- get ;;
  if negb (_is_valid_variable_name (fun v : OutputVariable => name v)
             (name variable) (output_variables (engine s)))
  then raise (ValueError duplicate_name_msg)
  else
    put (set_engine
           (set_output_variables (output_variables (engine s) ++ [variable])
              (engine s)) s).

(** [get_input_variable_names] and [get_output_variable_names] *)
Definition get_input_variable_names : M (list string) :=
  s <- get ;; ret (map name (input_variables (engine s))).

Definition get_output_variable_names : M (list string) :=
  s <- get ;;
  ret (map (fun v : OutputVariable => name v) (output_variables (engine s))).

(** *** [add_rules_from_list] *)

(** [self.rule_block.rules = ...] and [self.rule_block.rules.append(...)]:
    both dereference [self.rule_block], which fails on [None]. *)
Definition rule_block_update (f : list Rule -> list Rule) : M unit :=
  s <- get ;;
  match rule_block s with
  | None => raise AttributeError
  | Some l =>
      match store s !! l with
      | None => raise AttributeError
      | Some b => put (set_store (<[l := set_rules (f (rules b)) b]> (store s)) s)
      end
  end.

(** The [for rule in rule_list] loop.  [Rule_create] is the engine
    library's [fl.Rule.create(rule, engine)]. *)
Fixpoint add_rules_loop (Rule_create : string -> Engine -> Result Rule)
    (rule_list : list string) : M unit :=
  match rule_list with
  | [] => ret tt
  | rule :: rest =>
      s <- get ;;
      match Rule_create rule (engine s) with
      | Raise e => raise e
      | Ok r =>
          rule_block_update (fun rs => rs ++ [r]) ;;;
          add_rules_loop Rule_create rest
      end
  end.

Definition add_rules_from_list (Rule_create : string -> Engine -> Result Rule)
    (rule_list : list string) : M unit :=
  rule_block_update (fun _ => []) ;;;
  add_rules_loop Rule_create rule_list.

(** *** [inference] *)

(** The [value] setter of an engine variable: the value is clipped to the
    universe when the variable's range is locked.  The clipping takes the
    larger of the value and the lower bound, then the smaller of that and
    the upper bound. *)
Definition clip (x lo hi : Q) : Q :=
  let y := if Qle_bool x lo then lo else x in
  if Qle_bool hi y then hi else y.

Definition set_value (x : Q) (v : FlVariable) : FlVariable :=
  mkVariable (name v) (description v) (enabled v) (minimum v) (maximum v)
    (lock_range v) (terms v)
    (Some (if lock_range v then clip x (minimum v) (maximum v) else x)).

(** [engine.input_variable(name).value = x]: the engine returns the first
    input variable of that name. *)
Fixpoint assign_input (str_input : string) (x : Q)
    (vars : list InputVariable) : option (list InputVariable) :=
  match vars with
  | [] => None
  | v :: rest =>
      if String.eqb (name v) str_input then Some (set_value x v :: rest)
      else option_map (cons v) (assign_input str_input x rest)
  end.

Definition not_found_msg : string := "variable not found".

Definition bind_input (str_input : string) (x : Q) : M unit :=
  s <- get ;;
  match assign_input str_input x (input_variables (engine s)) with
  | None => raise (ValueError not_found_msg)
  | Some vars => put (set_engine (set_input_variables vars (engine s)) s)
  end.

(** [for i in range(n)] over [inputs], from index [i] on; [inputs] is
    what is left of the caller's sequence from that index. *)
Fixpoint bind_inputs (inputs_name : list string) (i : nat)
    (inputs : list Q) : M unit :=
  match inputs with
  | [] => ret tt
  | x :: rest =>
      match inputs_name !! i with
      | None => raise IndexError
      | Some str_input =>
          bind_input str_input x ;;;
          bind_inputs inputs_name (S i) rest
      end
  end.

(** [engine.output_variable(name)]: the first output variable of that
    name. *)
Fixpoint find_output (str_output : string) (vars : list OutputVariable)
    : option OutputVariable :=
  match vars with
  | [] => None
  | v :: rest =>
      if String.eqb (name v) str_output then Some v
      else find_output str_output rest
  end.

(** [engine.process()] belongs to the engine library: it reads the rule
    blocks, updates the engine and may raise. *)
Definition Process : Type := list RuleBlock -> Engine -> Engine * Result unit.

Definition call_process (process : Process) : M unit :=
  fun s =>
    let '(e, r) := process (store s) (engine s) in
    (set_engine e s, r).

Definition inference (process : Process) (inputs : list Q) : M unit :=
  inputs_name <- get_input_variable_names ;;
  bind_inputs inputs_name 0 inputs ;;;
  call_process process ;;;
  output_name <- get_output_variable_names ;;
  match output_name !! 0%nat with
  | None => raise IndexError
  | Some str_output =>
      s <- get ;;
      match find_output str_output (output_variables (engine s)) with
      | None => raise (ValueError not_found_msg)
      | Some v => put (set_output (value v) s)
      end
  end.

(** ** Sequences of method calls *)

Inductive call : Type :=
  | CreateRuleBlock (rule_name rule_description : string) (enabled : bool)
      (rule_conjunction : option TNorm) (rule_disjunction : option SNorm)
      (rule_implication : option TNorm)
      (rule_activation : option Activation) (rules : option (list Rule))
  | AddRuleBlock
  | AddInputVariable (variable : InputVariable)
  | AddOutputVariable (variable : OutputVariable)
  | AddRulesFromList (rule_list : list string)
  | Inference (inputs : list Q).

Definition run_call (Rule_create : string -> Engine -> Result Rule)
    (process : Process) (c : call) : M unit :=
  match c with
  | CreateRuleBlock n d en cj dj im ac rs =>
      create_rule_block n d en cj dj im ac rs
  | AddRuleBlock => add_rule_block
  | AddInputVariable v => add_input_variable v
  | AddOutputVariable v => add_output_variable v
  | AddRulesFromList l => add_rules_from_list Rule_create l
  | Inference inputs => inference process inputs
  end.

(** The state after a caller has made the calls in order, going on after
    any exception. *)
Fixpoint run_calls (Rule_create : string -> Engine -> Result Rule)
    (process : Process) (cs : list call) (s : FIS) : FIS :=
  match cs with
  | [] => s
  | c :: rest =>
      run_calls Rule_create process rest
        (fst (run_call Rule_create process c s))
  end.

Definition is_rule_block_call (c : call) : bool :=
  match c with
  | CreateRuleBlock _ _ _ _ _ _ _ _ | AddRuleBlock => true
  | _ => false
  end.

Definition is_add_rule_block (c : call) : bool :=
  match c with
  | AddRuleBlock => true
  | _ => false
  end.

Definition is_inference (c : call) : bool :=
  match c with
  | Inference _ => true
  | _ => false
  end.

(** ** Predicates on terms *)

(** Two terms with the same name and equal parameters as rationals. *)
Definition Term_eq (t u : Term) : Prop :=
  match t, u with
  | Triangle l a b c, Triangle l' a' b' c' =>
      l = l' /\ a == a' /\ b == b' /\ c == c'
  | Trapezoid l a b c d, Trapezoid l' a' b' c' d' =>
      l = l' /\ a == a' /\ b == b' /\ c == c' /\ d == d'
  | Gaussian l m sd, Gaussian l' m' sd' =>
      l = l' /\ m == m' /\ sd == sd'
  | _, _ => False
  end.

(** The parameter tuple of a triangle or trapezoid does not decrease from
    left to right. *)
Definition monotone (t : Term) : Prop :=
  match t with
  | Triangle _ a b c => a <= b /\ b <= c
  | Trapezoid _ a b c d => a <= b /\ b <= c /\ c <= d
  | Gaussian _ _ _ => True
  end.

Definition monotoneb (t : Term) : bool :=
  match t with
  | Triangle _ a b c => Qle_bool a b && Qle_bool b c
  | Trapezoid _ a b c d => Qle_bool a b && Qle_bool b c && Qle_bool c d
  | Gaussian _ _ _ => true
  end.

Definition fmonotoneb (t : Binary64.FTerm) : bool :=
  match t with
  | Binary64.FTriangle _ a b c => Binary64.le a b && Binary64.le b c
  | Binary64.FTrapezoid _ a b c d =>
      Binary64.le a b && Binary64.le b c && Binary64.le c d
  end.

(** Position of a label, as the loop bodies classify it: index 0 is the
    first label even when it is also the only one. *)
Inductive position : Type := First | Last | Interior.

Definition classify (n i : nat) : position :=
  if Nat.eqb i 0 then First
  else if Nat.eqb i (n - 1) then Last
  else Interior.

(** ** Observations and stand-ins used in closed examples *)

(** The rule list of the session's current rule block. *)
Definition current_rules (s : FIS) : option (list Rule) :=
  match rule_block s with
  | None => None
  | Some l => option_map rules (store s !! l)
  end.

(** The input variables once [inputs] have been assigned position by
    position; variables beyond the given values are left as they are. *)
Definition bound_inputs (inputs : list Q) (vars : list InputVariable)
    : list InputVariable :=
  zip_with set_value inputs vars ++ drop (length inputs) vars.

Definition with_inputs (inputs : list Q) (s : FIS) : FIS :=
  set_engine
    (set_input_variables (bound_inputs inputs (input_variables (engine s)))
       (engine s)) s.

(** A stand-in for the rule compiler: it accepts the texts that start
    with the keyword of the rule grammar. *)
Definition demo_Rule_create (rule : string) (e : Engine) : Result Rule :=
  if String.prefix "if " rule then Ok (mkRule rule)
  else Raise (EngineError "syntax").

(** A stand-in for the evaluation pass: every output variable takes the
    value of the first input variable. *)
Definition demo_process : Process :=
  fun _ e =>
    match input_variables e with
    | [] => (e, Raise (EngineError "no input variable"))
    | i :: _ =>
        (set_output_variables
           (map (fun v : OutputVariable =>
                   mkOutputVariable
                     (mkVariable (name v) (description v) (enabled v)
                        (minimum v) (maximum v) (lock_range v) (terms v)
                        (value i))
                     (aggregation v) (defuzzifier v))
              (output_variables e)) e,
         Ok tt)
    end.

Definition demo_input (variable_name : string) : InputVariable :=
  new_InputVariable variable_name "" true 0 1 false [].

Definition demo_output (variable_name : string) : OutputVariable :=
  new_OutputVariable variable_name "" true 0 1 false (Some Maximum)
    (Some (Centroid 50)) [].

(** A session with input variables x and y and output variable z. *)
Definition demo_session : FIS :=
  run_calls demo_Rule_create demo_process
    [AddInputVariable (demo_input "x"); AddInputVariable (demo_input "y");
     AddOutputVariable (demo_output "z")]
    (__init__ "My FIS" "Fuzzy Inference System").

(** A session whose current rule block holds one rule. *)
Definition session_with_rule : FIS :=
  run_calls demo_Rule_create demo_process
    [CreateRuleBlock "" "" true (Some Minimum) (Some Maximum)
       (Some AlgebraicProduct) (Some General)
       (Some [mkRule "if x is low then z is high"]);
     AddRuleBlock]
    demo_session.

(** A method that leaves the [output] attribute as it found it. *)
Definition preserves_output {A} (m : M A) : Prop :=
  forall s, output (fst (m s)) = output s.

(** ** The synthesizers over Python's own numbers *)

(** The synthesizers once more, this time without fixing the numbers.
    Their arguments are Python numbers ([int] or [float]) and every
    arithmetic operation may raise; [Arith] is what the code needs of
    them.  [num_of_int] injects an [int] (a literal, the loop index, the
    number of labels); [num_half] is the literal [0.5].  Division by the
    [int] zero raises [ZeroDivisionError] for every dividend. *)
Module Py.

Class Arith (num : Type) : Type := {
  num_of_int : Z -> num;
  num_half : num;
  num_add : num -> num -> Result num;
  num_sub : num -> num -> Result num;
  num_mul : num -> num -> Result num;
  num_truediv : num -> num -> Result num;
  num_truediv_zero :
    forall x, num_truediv x (num_of_int 0) = Raise ZeroDivisionError
}.

Inductive Term (num : Type) : Type :=
  | Triangle (label : string) (a b c : num)
  | Trapezoid (label : string) (a b c d : num)
  | Gaussian (label : string) (mean std_dev : num).
Arguments Triangle {num} label a b c.
Arguments Trapezoid {num} label a b c d.
Arguments Gaussian {num} label mean std_dev.

Definition term_name {num} (t : Term num) : string :=
  match t with
  | Triangle l _ _ _ => l
  | Trapezoid l _ _ _ _ => l
  | Gaussian l _ _ => l
  end.

(** The left and right foot of a triangle or trapezoid. *)
Definition feet {num} (t : Term num) : option (num * num) :=
  match t with
  | Triangle _ a _ c => Some (a, c)
  | Trapezoid _ a _ _ d => Some (a, d)
  | Gaussian _ _ _ => None
  end.

(** A binary operation on two operands that are evaluated first, the left
    one before the right one. *)
Definition lift2 {num} (op : num -> num -> Result num)
    (x y : Result num) : Result num :=
  Result_bind x (fun a => Result_bind y (fun b => op a b)).

Definition mapM_index_body {A B} (f : nat -> A -> Result B)
    (rec : nat -> list A -> Result (list B)) (i : nat) (x : A)
    (rest : list A) : Result (list B) :=
  Result_bind (f i x) (fun y =>
  Result_bind (rec (S i) rest) (fun ys => Ok (y :: ys))).

(** [for i, label in enumerate(labels): ...; mfs.append(...)], counting
    from [i]: the first iteration that raises ends the loop. *)
Fixpoint mapM_index {A B} (f : nat -> A -> Result B) (i : nat)
    (l : list A) : Result (list B) :=
  match l with
  | [] => Ok []
  | x :: rest => mapM_index_body f (mapM_index f) i x rest
  end.

Section Synthesizers.
Context {num : Type} `{Arith num}.

Notation "x <~ m ;; k" := (Result_bind m (fun x => k))
  (at level 100, m at next level, right associativity).
Notation "x .+ y" := (lift2 num_add x y) (at level 50, left associativity).
Notation "x .- y" := (lift2 num_sub x y) (at level 50, left associativity).
Notation "x .* y" := (lift2 num_mul x y) (at level 40, left associativity).
Notation "x ./ y" := (lift2 num_truediv x y) (at level 40, left associativity).

(** An operand that is a variable, and one that is an [int]. *)
Definition val (x : num) : Result num := Ok x.
Definition int (i : nat) : Result num := Ok (num_of_int (Z.of_nat i)).

(** Loop body of [_create_triangular_mf]. *)
Definition triangular_term (n : nat) (minimum maximum step overlap : num)
    (i : nat) (label : string) : Result (Term num) :=
  if Nat.eqb i 0 then
    let a := minimum in
    let b := minimum in
    c <~ val minimum .+ val step .* (int 1 .+ val overlap) ;;
    Ok (Triangle label a b c)
  else if Nat.eqb i (n - 1) then
    a <~ val minimum .+ val step .* (int i .- val overlap) ;;
    let b := maximum in
    let c := maximum in
    Ok (Triangle label a b c)
  else
    a <~ val minimum .+ val step .* (int (i + 0) .- val overlap) ;;
    c <~ val minimum .+ val step .* (int (i + 1) .+ val overlap) ;;
    b <~ val num_half .* (val c .+ val a) ;;
    Ok (Triangle label a b c).

Definition _create_triangular_mf (labels : list string)
    (minimum maximum overlap : num) : Result (list (Term num)) :=
  let n := length labels in
  range_size <~ val maximum .- val minimum ;;
  step <~ val range_size ./ int n ;;
  mapM_index (triangular_term n minimum maximum step overlap) 0 labels.

(** Loop body of [_create_trapezoid_mf]. *)
Definition trapezoid_term (n : nat)
    (minimum maximum step ratio overlap : num)
    (i : nat) (label : string) : Result (Term num) :=
  if Nat.eqb i 0 then
    let a := minimum in
    let b := minimum in
    d <~ val minimum .+ val step .* (int 1 .+ val overlap) ;;
    half_top <~ val ratio .* (val d .- val a) ;;
    c <~ val minimum .+ val half_top ;;
    Ok (Trapezoid label a b c d)
  else if Nat.eqb i (n - 1) then
    a <~ val minimum .+ val step .* (int i .- val overlap) ;;
    let c := maximum in
    let d := maximum in
    b <~ (val a .+ val d) .* val ratio ;;
    Ok (Trapezoid label a b c d)
  else
    a <~ val minimum .+ val step .* (int (i + 0) .- val overlap) ;;
    d <~ val minimum .+ val step .* (int (i + 1) .+ val overlap) ;;
    mid <~ (val d .+ val a) .* val num_half ;;
    half_top <~ val ratio .* (val d .- val a) .* val num_half ;;
    b <~ val mid .- val half_top ;;
    c <~ val mid .+ val half_top ;;
    Ok (Trapezoid label a b c d).

Definition _create_trapezoid_mf (labels : list string)
    (minimum maximum ratio overlap : num) : Result (list (Term num)) :=
  let n := length labels in
  range_size <~ val maximum .- val minimum ;;
  step <~ val range_size ./ int n ;;
  mapM_index (trapezoid_term n minimum maximum step ratio overlap) 0 labels.

(** Loop body of [_create_gaussian_mf]. *)
Definition gaussian_term (n : nat) (minimum maximum step overlap : num)
    (i : nat) (label : string) : Result (Term num) :=
  if Nat.eqb i 0 then
    c <~ val minimum .+ val step .* (int 1 .+ val overlap) ;;
    let mean := minimum in
    std_dev <~ (val mean .- val c) ./ int 3 ;;
    Ok (Gaussian label mean std_dev)
  else if Nat.eqb i (n - 1) then
    a <~ val minimum .+ val step .* (int i .- val overlap) ;;
    let mean := maximum in
    std_dev <~ (val mean .- val a) ./ int 3 ;;
    Ok (Gaussian label mean std_dev)
  else
    a <~ val minimum .+ val step .* (int (i + 0) .- val overlap) ;;
    c <~ val minimum .+ val step .* (int (i + 1) .+ val overlap) ;;
    b <~ val num_half .* (val c .+ val a) ;;
    let mean := b in
    std_dev <~ (val mean .- val c) ./ int 3 ;;
    Ok (Gaussian label mean std_dev).

Definition _create_gaussian_mf (labels : list string)
    (minimum maximum overlap : num) : Result (list (Term num)) :=
  let n := length labels in
  range_size <~ val maximum .- val minimum ;;
  step <~ val range_size ./ int n ;;
  mapM_index (gaussian_term n minimum maximum step overlap) 0 labels.

(** [0.5 * (c + a)]: the peak between two feet. *)
Definition midpoint (a c : num) : Result num :=
  val num_half .* (val c .+ val a).

(** [(mean - foot) / 3]: a third of the signed distance from a foot to
    the mean. *)
Definition third_of_difference (mean foot : num) : Result num :=
  (val mean .- val foot) ./ int 3.

End Synthesizers.

(** *** Python's [int] and [float] *)

Import Floats.

Inductive pynum : Type :=
  | PyInt (z : Z)
  | PyFloat (f : float).

(** [float(z)]: the nearest binary64, ties to even; [OverflowError] when
    that is beyond the largest float. *)
Definition float_of_Z (z : Z) : float :=
  SF2Prim (SpecFloat.binary_normalize prec emax z 0 false).

Definition to_float (x : pynum) : Result float :=
  match x with
  | PyFloat f => Ok f
  | PyInt z =>
      let f := float_of_Z z in
      if PrimFloat.is_infinity f then Raise OverflowError else Ok f
  end.

(** [+], [-] and [*]: exact on two [int]s; otherwise both operands are
    converted to [float] and the binary64 operation is applied. *)
Definition arith (on_int : Z -> Z -> Z) (on_float : float -> float -> float)
    (x y : pynum) : Result pynum :=
  match x, y with
  | PyInt a, PyInt b => Ok (PyInt (on_int a b))
  | _, _ =>
      Result_bind (to_float x) (fun a =>
      Result_bind (to_float y) (fun b => Ok (PyFloat (on_float a b))))
  end.

Definition spec_of_Z (z : Z) : SpecFloat.spec_float :=
  match z with
  | Z0 => SpecFloat.S754_zero false
  | Zpos p => SpecFloat.S754_finite false p 0
  | Zneg p => SpecFloat.S754_finite true p 0
  end.

(** [/]: on two [int]s the correctly rounded quotient, on anything else
    the binary64 quotient of the converted operands; a zero divisor
    raises. *)
Definition truediv (x y : pynum) : Result pynum :=
  match x, y with
  | PyInt a, PyInt b =>
      if Z.eqb b 0 then Raise ZeroDivisionError
      else
        let q :=
          SF2Prim (SpecFloat.SFdiv prec emax (spec_of_Z a) (spec_of_Z b)) in
        if PrimFloat.is_infinity q then Raise OverflowError
        else Ok (PyFloat q)
  | _, _ =>
      Result_bind (to_float x) (fun a =>
      Result_bind (to_float y) (fun b =>
        if PrimFloat.eqb b PrimFloat.zero then Raise ZeroDivisionError
        else Ok (PyFloat (PrimFloat.div a b))))
  end.

Lemma truediv_zero (x : pynum) : truediv x (PyInt 0) = Raise ZeroDivisionError.
Proof.
  destruct x as [a|f]; simpl; [reflexivity|].
  reflexivity.
Qed.

#[global] Instance pynum_arith : Arith pynum := {|
  num_of_int := PyInt;
  num_half := PyFloat (PrimFloat.div PrimFloat.one PrimFloat.two);
  num_add := arith Z.add PrimFloat.add;
  num_sub := arith Z.sub PrimFloat.sub;
  num_mul := arith Z.mul PrimFloat.mul;
  num_truediv := truediv;
  num_truediv_zero := truediv_zero
|}.

(** Comparisons of a float with zero, as Python's [x < 0] and [0 < x]. *)
Definition negative (x : pynum) : bool :=
  match x with
  | PyInt z => Z.ltb z 0
  | PyFloat f => PrimFloat.ltb f PrimFloat.zero
  end.

Definition positive (x : pynum) : bool :=
  match x with
  | PyInt z => Z.ltb 0 z
  | PyFloat f => PrimFloat.ltb PrimFloat.zero f
  end.

End Py.

(** ** Well-formed sessions *)

(** No call in the sequence is a call of [inference]. *)
Definition no_inference (cs : list call) : bool :=
  forallb (fun c => negb (is_inference c)) cs.

(** Every rule-block reference of the session and of its engine points
    into the store. *)
Definition references_allocated (s : FIS) : Prop :=
  (forall l, rule_block s = Some l -> (l < length (store s))%nat) /\
  (forall l, Some l ∈ rule_blocks (engine s) -> (l < length (store s))%nat).

(** The rule list of the block a reference of the engine points to. *)
Definition rules_at (s : FIS) (l : loc) : option (list Rule) :=
  option_map rules (store s !! l).

(** A method that touches nothing but the rule list of the session's
    current rule block. *)
Definition only_current_rules {A} (m : M A) : Prop :=
  forall s,
    engine (fst (m s)) = engine s /\
    rule_block (fst (m s)) = rule_block s /\
    output (fst (m s)) = output s /\
    length (store (fst (m s))) = length (store s) /\
    forall l, rule_block s <> Some l ->
      store (fst (m s)) !! l = store s !! l.

Definition is_create_rule_block (c : call) : bool :=
  match c with
  | CreateRuleBlock _ _ _ _ _ _ _ _ => true
  | _ => false
  end.

(** A method that leaves a component of the session as it found it,
    whether it returns or raises. *)
Definition keeps {A B} (component : FIS -> B) (m : M A) : Prop :=
  forall s, component (fst (m s)) = component s.

(** * Properties *)

Ltac unfold_monad :=
  unfold bind, get, put, ret, raise, modify in *; simpl in *.

(** ** Arithmetic of the partition *)

Lemma of_nat_S (i : nat) : of_nat (S i) == of_nat i + 1.
Proof.
  unfold of_nat. rewrite Nat2Z.inj_succ. unfold Z.succ.
  rewrite inject_Z_plus. reflexivity.
Qed.

Lemma of_nat_pos (n : nat) : (0 < n)%nat -> 0 < of_nat n.
Proof.
  intros H. unfold of_nat. change 0 with (inject_Z 0).
  rewrite <- Zlt_Qlt. lia.
Qed.

(** [step] is positive on a proper universe with at least one label. *)
Lemma step_pos (n : nat) (lo hi : Q) :
  (0 < n)%nat -> lo < hi -> 0 < (hi - lo) / of_nat n.
Proof.
  intros Hn Hlt. apply Qlt_shift_div_l.
  - by apply of_nat_pos.
  - lra.
Qed.

(** [n] steps span the universe. *)
Lemma step_span (n : nat) (lo hi : Q) :
  (0 < n)%nat -> of_nat n * ((hi - lo) / of_nat n) == hi - lo.
Proof.
  intros Hn. rewrite Qmult_div_r; [reflexivity|].
  pose proof (of_nat_pos n Hn). lra.
Qed.

(** ** Monotone parameter tuples *)

Section Monotone.
Variables (n : nat) (lo hi step ov : Q).
Hypothesis step_nonneg : 0 < step.
Hypothesis span : of_nat n * step == hi - lo.
Hypothesis ov_nonneg : 0 <= ov.

Lemma widened_slot (i : nat) :
  lo + step * (of_nat i + 0 - ov) <= lo + step * (of_nat i + 1 + ov).
Proof using step_nonneg ov_nonneg.
  assert (0 <= step * (1 + 2 * ov)) by (apply Qmult_le_0_compat; lra).
  lra.
Qed.

Lemma widened_first : 0 <= step * (1 + ov).
Proof using step_nonneg ov_nonneg. apply Qmult_le_0_compat; lra. Qed.

Lemma last_foot_below_maximum (i : nat) :
  i = (n - 1)%nat -> (0 < n)%nat -> lo + step * (of_nat i - ov) <= hi.
Proof using step_nonneg span ov_nonneg.
  intros -> Hn.
  assert (E : of_nat n == of_nat (n - 1) + 1).
  { rewrite <- of_nat_S. by replace (S (n - 1)) with n by lia. }
  rewrite E in span. pose proof widened_first. lra.
Qed.

Lemma triangular_term_monotone (i : nat) (label : string) :
  (i < n)%nat -> monotone (triangular_term n lo hi step ov i label).
Proof using step_nonneg span ov_nonneg.
  intros Hi. unfold triangular_term.
  destruct (Nat.eqb_spec i 0) as [->|Hi0]; simpl.
  { pose proof widened_first. split; lra. }
  destruct (Nat.eqb_spec i (n - 1)) as [Hl|Hl]; simpl.
  { split; [|lra]. apply last_foot_below_maximum; [done|lia]. }
  pose proof (widened_slot i). split; lra.
Qed.

Lemma trapezoid_term_monotone (ratio : Q) (i : nat) (label : string) :
  0 <= ratio -> ratio <= 1 -> classify n i <> Last ->
  monotone (trapezoid_term n lo hi step ratio ov i label).
Proof using step_nonneg ov_nonneg.
  intros Hr0 Hr1. unfold classify, trapezoid_term.
  destruct (Nat.eqb_spec i 0) as [->|Hi0]; simpl.
  { intros _. pose proof widened_first as Hw.
    assert (0 <= ratio * (step * (1 + ov))) by (apply Qmult_le_0_compat; lra).
    assert (0 <= (1 - ratio) * (step * (1 + ov)))
      by (apply Qmult_le_0_compat; lra).
    repeat split; lra. }
  destruct (Nat.eqb_spec i (n - 1)) as [Hl|Hl]; simpl; [done|intros _].
  assert (Hw : 0 <= step * (1 + 2 * ov)) by (apply Qmult_le_0_compat; lra).
  assert (0 <= ratio * (step * (1 + 2 * ov)))
    by (apply Qmult_le_0_compat; lra).
  assert (0 <= (1 - ratio) * (step * (1 + 2 * ov)))
    by (apply Qmult_le_0_compat; lra).
  repeat split; lra.
Qed.
End Monotone.

(** Every term of the triangular synthesizer is monotone. *)
Lemma triangular_monotone (labels : list string) (lo hi ov : Q)
    (ts : list Term) :
  lo < hi -> 0 <= ov ->
  _create_triangular_mf labels lo hi ov = Ok ts ->
  Forall monotone ts.
Proof.
  intros Hlt Hov. unfold _create_triangular_mf.
  destruct (Nat.eqb_spec (length labels) 0) as [|Hn]; [done|].
  intros [= <-]. apply Forall_lookup. intros i t.
  rewrite list_lookup_imap. destruct (labels !! i) as [l|] eqn:El; [|done].
  intros [= <-]. apply lookup_lt_Some in El.
  apply triangular_term_monotone.
  - apply step_pos; [lia|done].
  - apply step_span. lia.
  - done.
  - done.
Qed.

(** Every first or interior term of the trapezoid synthesizer is
    monotone. *)
Lemma trapezoid_monotone_not_last (labels : list string)
    (lo hi ratio ov : Q) (ts : list Term) (i : nat) (t : Term) :
  lo < hi -> 0 <= ov -> 0 <= ratio -> ratio <= 1 ->
  _create_trapezoid_mf labels lo hi ratio ov = Ok ts ->
  ts !! i = Some t -> classify (length labels) i <> Last ->
  monotone t.
Proof.
  intros Hlt Hov Hr0 Hr1. unfold _create_trapezoid_mf.
  destruct (Nat.eqb_spec (length labels) 0) as [|Hn]; [done|].
  intros [= <-]. rewrite list_lookup_imap.
  destruct (labels !! i) as [l|] eqn:El; [|done].
  intros [= <-] Hc. apply trapezoid_term_monotone; try done.
  apply step_pos; [lia|done].
Qed.

(** C2 (monotone parameter tuples), evaluated where it fails: the last
    label of the trapezoid synthesizer takes its left shoulder from
    [(a + d) * ratio].  With two labels on the universe [0, 1], ratio 1/4
    and no overlap, the term for the last label is (1/2, 3/8, 1, 1): its
    left shoulder lies left of its left foot.  The binary64 evaluation
    gives the same tuple.  Over exact rationals the triangular terms and
    the first and interior trapezoid terms are monotone
    ([triangular_monotone], [trapezoid_monotone_not_last]). *)
Theorem trapezoid_last_label_shoulder_left_of_foot :
  (exists low high,
     _create_trapezoid_mf ["low"; "high"] 0 1 (1 # 4) 0 = Ok [low; high] /\
     Term_eq high (Trapezoid "high" (1 # 2) (3 # 8) 1 1) /\
     monotoneb high = false /\ ~ monotone high) /\
  (exists low high,
     Binary64._create_trapezoid_mf ["low"; "high"] (Binary64.of_nat 0)
       (Binary64.of_nat 1) (Binary64.frac 1 4) (Binary64.of_nat 0) =
       Ok [low; high] /\
     low = Binary64.FTrapezoid "low" (Binary64.of_nat 0) (Binary64.of_nat 0)
             (Binary64.frac 1 8) (Binary64.frac 1 2) /\
     high = Binary64.FTrapezoid "high" (Binary64.frac 1 2)
              (Binary64.frac 3 8) (Binary64.of_nat 1) (Binary64.of_nat 1) /\
     fmonotoneb low = true /\ fmonotoneb high = false).
Proof.
  split.
  - do 2 eexists. split; [reflexivity|].
    split; [|split].
    + repeat split; vm_compute; reflexivity.
    + vm_compute. reflexivity.
    + intros [H _]. vm_compute in H. by apply H.
  - do 2 eexists. split; [vm_compute; reflexivity|].
    repeat split; vm_compute; reflexivity.
Qed.

(** ** The three-label partition *)

(** C3: on labels low, average, high over [0, 1] with no overlap the
    triangular synthesizer returns low = (0, 0, 1/3),
    average = (1/3, 1/2, 2/3), high = (2/3, 1, 1); each right foot is the
    next left foot and the interior peak is the midpoint of its feet.
    The binary64 evaluation returns the floats nearest to these values,
    with feet that are equal as floats. *)
Theorem triangular_three_label_partition :
  (exists la lb lc aa ab ac ha hb hc,
     _create_triangular_mf ["low"; "average"; "high"] 0 1 0 =
       Ok [Triangle "low" la lb lc; Triangle "average" aa ab ac;
           Triangle "high" ha hb hc] /\
     (la == 0 /\ lb == 0 /\ lc == 1 # 3) /\
     (aa == 1 # 3 /\ ab == 1 # 2 /\ ac == 2 # 3) /\
     (ha == 2 # 3 /\ hb == 1 /\ hc == 1) /\
     lc == aa /\ ac == ha /\ ab == (aa + ac) / 2) /\
  Binary64._create_triangular_mf ["low"; "average"; "high"]
    (Binary64.of_nat 0) (Binary64.of_nat 1) (Binary64.of_nat 0) =
  Ok [Binary64.FTriangle "low" (Binary64.of_nat 0) (Binary64.of_nat 0)
        (Binary64.frac 1 3);
      Binary64.FTriangle "average" (Binary64.frac 1 3) (Binary64.frac 1 2)
        (Binary64.frac 2 3);
      Binary64.FTriangle "high" (Binary64.frac 2 3) (Binary64.of_nat 1)
        (Binary64.of_nat 1)].
Proof.
  split; [|vm_compute; reflexivity].
  do 9 eexists. split; [reflexivity|].
  repeat split; vm_compute; reflexivity.
Qed.

(** ** The Gaussian approximation *)

(** A loop that returns has run its body on every element, in order. *)
Lemma mapM_index_lookup {A B} (f : nat -> A -> Result B) (l : list A) :
  forall (i : nat) (ys : list B),
  Py.mapM_index f i l = Ok ys ->
  length ys = length l /\
  forall j x, l !! j = Some x ->
    exists y, f (i + j)%nat x = Ok y /\ ys !! j = Some y.
Proof.
  induction l as [|x l IH]; intros i ys; simpl.
  - intros [= <-]. split; [done|]. intros j x Hx. done.
  - unfold Py.mapM_index_body, Result_bind.
    destruct (f i x) as [y|e] eqn:Ey; [|done].
    destruct (Py.mapM_index f (S i) l) as [ys'|e] eqn:Er; [|done].
    intros [= <-]. destruct (IH _ _ Er) as [Hlen Hall].
    split; [simpl; by rewrite Hlen|].
    intros [|j] x' Hx'; simpl in *.
    + injection Hx' as <-. exists y. by rewrite Nat.add_0_r.
    + destruct (Hall j x' Hx') as (y' & Hy' & Hl).
      exists y'. split; [|done]. by rewrite Nat.add_succ_r.
Qed.

(** A loop whose body returns on every element returns. *)
Lemma mapM_index_returns {A B} (g : nat -> A -> Result B) (l : list A) :
  forall i : nat,
  (forall j x, l !! j = Some x -> exists z, g (i + j)%nat x = Ok z) ->
  exists zs, Py.mapM_index g i l = Ok zs.
Proof.
  induction l as [|x l IH]; intros i Hall; simpl; [by eexists|].
  unfold Py.mapM_index_body, Result_bind.
  destruct (Hall 0%nat x eq_refl) as (z & Hz). rewrite Nat.add_0_r in Hz.
  rewrite Hz. destruct (IH (S i)) as (zs & Hzs).
  { intros j x' Hx'. destruct (Hall (S j) x' Hx') as (z' & Hz').
    exists z'. by rewrite Nat.add_succ_r in Hz'. }
  rewrite Hzs. by eexists.
Qed.

(** Case analysis on the operations of a computation, innermost first. *)
Ltac split_op x :=
  lazymatch x with
  | context [match ?y with Ok _ => _ | Raise _ => _ end] => split_op y
  | _ => destruct x eqn:?
  end.

Ltac split_ops :=
  unfold Py.midpoint, Py.third_of_difference, Py.lift2, Py.val, Py.int,
    Result_bind in *;
  repeat (simplify_eq;
    match goal with
    | H : context [match ?x with Ok _ => _ | Raise _ => _ end] |- _ =>
        split_op x; simpl in H
    | |- context [match ?x with Ok _ => _ | Raise _ => _ end] =>
        split_op x; simpl
    end);
  simplify_eq.

Section GaussianOnTriangle.
Context {num : Type} `{Py.Arith num}.

(** One iteration: when the Gaussian body returns, the triangular body
    returns too; the Gaussian is centred on the peak of the triangle and
    its deviation is a third of peak minus foot. *)
Lemma gaussian_term_on_triangle (n : nat) (lo hi step ov : num) (i : nat)
    (label : string) (g : Py.Term num) :
  Py.gaussian_term n lo hi step ov i label = Ok g ->
  exists a b c sd,
    Py.triangular_term n lo hi step ov i label = Ok (Py.Triangle label a b c) /\
    g = Py.Gaussian label b sd /\
    match classify n i with
    | First => a = lo /\ b = lo /\ Py.third_of_difference b c = Ok sd
    | Interior =>
        Py.midpoint a c = Ok b /\ Py.third_of_difference b c = Ok sd
    | Last => b = hi /\ c = hi /\ Py.third_of_difference b a = Ok sd
    end.
Proof using Type.
  unfold Py.gaussian_term, Py.triangular_term, classify.
  destruct (Nat.eqb i 0); [|destruct (Nat.eqb i (n - 1))];
    intros Hg; split_ops; eexists _, _, _, _;
    (split; [reflexivity|]); (split; [reflexivity|]);
    repeat split; split_ops; congruence.
Qed.

(** C6, as the code has it: whenever the Gaussian synthesizer returns,
    so does the triangular synthesizer on the same arguments, and the
    Gaussian term of each label has the peak of the label's triangle as
    its mean.  For index 0 (also when it is the only label) the mean is
    the universe minimum and the deviation is computed as
    (mean - right foot) / 3; for an interior label the mean is
    0.5 * (right foot + left foot) and the deviation is
    (mean - right foot) / 3; for the last of two or more labels the mean
    is the universe maximum and the deviation is (mean - left foot) / 3.
    The mean and the feet are the very values of the triangle, and the
    deviation is what the subtraction and the division return on them in
    the arithmetic of the arguments: no sign is taken and no closed form
    in [step] is promised. *)
Theorem gaussian_mean_and_deviation (labels : list string) (lo hi ov : num)
    (gs : list (Py.Term num)) :
  Py._create_gaussian_mf labels lo hi ov = Ok gs ->
  exists ts,
    Py._create_triangular_mf labels lo hi ov = Ok ts /\
    length gs = length labels /\ length ts = length labels /\
    forall i g, gs !! i = Some g ->
      exists label a b c sd,
        labels !! i = Some label /\
        ts !! i = Some (Py.Triangle label a b c) /\
        g = Py.Gaussian label b sd /\
        match classify (length labels) i with
        | First => a = lo /\ b = lo /\ Py.third_of_difference b c = Ok sd
        | Interior =>
            Py.midpoint a c = Ok b /\ Py.third_of_difference b c = Ok sd
        | Last => b = hi /\ c = hi /\ Py.third_of_difference b a = Ok sd
        end.
Proof using Type.
  unfold Py._create_gaussian_mf, Py._create_triangular_mf.
  unfold Result_bind at 1 3.
  destruct (Py.lift2 Py.num_sub (Py.val hi) (Py.val lo)) as [range|e];
    [|done].
  unfold Result_bind.
  destruct (Py.lift2 Py.num_truediv (Py.val range) _) as [step|e]; [|done].
  intros Hg. destruct (mapM_index_lookup _ _ _ _ Hg) as [Hlen Hall].
  destruct (mapM_index_returns
              (Py.triangular_term (length labels) lo hi step ov) labels 0)
    as (ts & Hts).
  { intros j x Hx. destruct (Hall j x Hx) as (g & Eg & _).
    destruct (gaussian_term_on_triangle _ _ _ _ _ _ _ _ Eg)
      as (a & b & c & sd & Et & _). by eexists. }
  exists ts. split; [done|].
  destruct (mapM_index_lookup _ _ _ _ Hts) as [Hlen' Hall'].
  split; [done|]. split; [done|].
  intros i g Hgi.
  assert (Hi : (i < length labels)%nat)
    by (rewrite <- Hlen; by eapply lookup_lt_Some).
  destruct (lookup_lt_is_Some_2 labels i Hi) as [label El].
  destruct (Hall i label El) as (g' & Eg & Hg'). simpl in Eg.
  assert (g' = g) as -> by congruence.
  destruct (gaussian_term_on_triangle _ _ _ _ _ _ _ _ Eg)
    as (a & b & c & sd & Et & -> & Hcase).
  destruct (Hall' i label El) as (t & Et' & Ht). simpl in Et'.
  exists label, a, b, c, sd. repeat split; try done. congruence.
Qed.
End GaussianOnTriangle.

Lemma gaussian_mean_and_deviation_witness :
  exists gs ts,
    Py._create_gaussian_mf ["low"; "average"; "high"] (Py.PyInt 0)
      (Py.PyInt 1) (Py.PyInt 0) = Ok gs /\
    Py._create_triangular_mf ["low"; "average"; "high"] (Py.PyInt 0)
      (Py.PyInt 1) (Py.PyInt 0) = Ok ts /\
    forall i g, gs !! i = Some g ->
      exists label a b c sd,
        ["low"; "average"; "high"] !! i = Some label /\
        ts !! i = Some (Py.Triangle label a b c) /\
        g = Py.Gaussian label b sd /\
        match classify 3 i with
        | First =>
            a = Py.PyInt 0 /\ b = Py.PyInt 0 /\
            Py.third_of_difference b c = Ok sd
        | Interior =>
            Py.midpoint a c = Ok b /\ Py.third_of_difference b c = Ok sd
        | Last =>
            b = Py.PyInt 1 /\ c = Py.PyInt 1 /\
            Py.third_of_difference b a = Ok sd
        end.
Proof.
  eassert (E : Py._create_gaussian_mf ["low"; "average"; "high"] (Py.PyInt 0)
                 (Py.PyInt 1) (Py.PyInt 0) = Ok _) by (vm_compute; reflexivity).
  destruct (gaussian_mean_and_deviation ["low"; "average"; "high"]
              (Py.PyInt 0) (Py.PyInt 1) (Py.PyInt 0) _ E)
    as (ts & Et & _ & _ & Hall).
  eexists _, ts. split; [exact E|]. split; [exact Et|exact Hall].
Defined.

(** C6 as stated fails, in three ways.  A single label is the last label,
    yet its mean is the universe minimum and its deviation is negative.
    On the universe [1e16, 1e16 + 2] with three labels and no overlap the
    deviation of the first label is not negative and that of the last
    label is not positive: both are zero.  On the universe [1, 2] the
    deviation of the first label differs from -(1 + overlap) * step / 3
    as floats. *)
Lemma gaussian_deviation_sign_and_single_label :
  (exists sd,
     Py._create_gaussian_mf ["only"] (Py.PyInt 0) (Py.PyInt 1) (Py.PyInt 0) =
       Ok [Py.Gaussian "only" (Py.PyInt 0) sd] /\
     Py.PyInt 0 <> Py.PyInt 1 /\ Py.positive sd = false) /\
  (exists first_sd middle last_sd,
     Py._create_gaussian_mf ["a"; "b"; "c"]
       (Py.PyFloat (Py.float_of_Z (10 ^ 16)))
       (Py.PyFloat (Py.float_of_Z (10 ^ 16 + 2))) (Py.PyInt 0) =
       Ok [Py.Gaussian "a" (Py.PyFloat (Py.float_of_Z (10 ^ 16))) first_sd;
           middle;
           Py.Gaussian "c" (Py.PyFloat (Py.float_of_Z (10 ^ 16 + 2)))
             last_sd] /\
     Py.negative first_sd = false /\ Py.positive last_sd = false) /\
  (exists first_sd rest step closed_form,
     Py._create_gaussian_mf ["a"; "b"; "c"] (Py.PyInt 1) (Py.PyInt 2)
       (Py.PyInt 0) = Ok (Py.Gaussian "a" (Py.PyInt 1) first_sd :: rest) /\
     Py.truediv (Py.PyInt 1) (Py.PyInt 3) = Ok step /\
     Result_bind (Py.arith Z.mul PrimFloat.mul (Py.PyInt (- (1 + 0))) step)
       (fun x => Py.truediv x (Py.PyInt 3)) = Ok closed_form /\
     first_sd <> closed_form).
Proof.
  split; [|split].
  - eexists. split; [vm_compute; reflexivity|]. split; [discriminate|].
    vm_compute. reflexivity.
  - eexists _, _, _. split; [vm_compute; reflexivity|].
    split; vm_compute; reflexivity.
  - eexists _, _, _, _. split; [vm_compute; reflexivity|].
    split; [vm_compute; reflexivity|]. split; [vm_compute; reflexivity|].
    intros [=].
Qed.

(** ** The variable builders *)

Lemma shape_is_other (kind other : string) :
  kind <> other -> shape_is (Some kind) other = false.
Proof. intros H. simpl. by apply String.eqb_neq. Qed.

Section Builders.
Variables (variable_name variable_description : string) (enable : bool).
Variables (lo hi ratio : Q) (lock : bool) (labels : list string).
Variables (agg : option SNorm) (defuzz : option Defuzzifier) (ov : Q).

Let input (auto_mf_type : option string) (ts : option (list Term)) :=
  create_input_variable variable_name variable_description enable lo hi
    ratio lock labels auto_mf_type ts ov.
Let output (auto_mf_type : option string) (ts : option (list Term)) :=
  create_output_variable variable_name variable_description enable lo hi
    ratio lock agg defuzz labels auto_mf_type ts ov.
Let new_input :=
  new_InputVariable variable_name variable_description enable lo hi lock.
Let new_output :=
  new_OutputVariable variable_name variable_description enable lo hi lock
    agg defuzz.

(** C1, as the code has it: explicit terms are carried verbatim when no
    shape kind is given; when a supported shape kind is given, the
    variable carries the terms synthesized for that shape from the
    labels, the universe, the overlap and (for trapezoids) the ratio,
    whatever explicit terms were supplied with it. *)
Theorem explicit_terms_only_without_shape (ts : list Term) :
  (input None (Some ts) = Ok (Some (new_input ts)) /\
   output None (Some ts) = Ok (Some (new_output ts))) /\
  (input (Some "triangular") (Some ts) =
     Result_bind (_create_triangular_mf labels lo hi ov)
       (fun syn => Ok (Some (new_input syn))) /\
   input (Some "gaussian") (Some ts) =
     Result_bind (_create_gaussian_mf labels lo hi ov)
       (fun syn => Ok (Some (new_input syn))) /\
   input (Some "trapezoid") (Some ts) =
     Result_bind (_create_trapezoid_mf labels lo hi ratio ov)
       (fun syn => Ok (Some (new_input syn)))) /\
  (output (Some "triangular") (Some ts) =
     Result_bind (_create_triangular_mf labels lo hi ov)
       (fun syn => Ok (Some (new_output syn))) /\
   output (Some "gaussian") (Some ts) =
     Result_bind (_create_gaussian_mf labels lo hi ov)
       (fun syn => Ok (Some (new_output syn))) /\
   output (Some "trapezoid") (Some ts) =
     Result_bind (_create_trapezoid_mf labels lo hi ratio ov)
       (fun syn => Ok (Some (new_output syn)))).
Proof. repeat split. Qed.

(** C8, as the code has it: a shape kind other than triangular, gaussian
    and trapezoid raises nothing; the call completes and returns no
    variable, with or without explicit terms. *)
Theorem unsupported_shape_returns_no_variable (kind : string)
    (ts : option (list Term)) :
  kind <> "triangular" -> kind <> "gaussian" -> kind <> "trapezoid" ->
  input (Some kind) ts = Ok None /\ output (Some kind) ts = Ok None.
Proof.
  intros H1 H2 H3. subst input output.
  unfold create_input_variable, create_output_variable.
  rewrite !shape_is_other by done. simpl. by destruct ts.
Qed.

(** Neither explicit terms nor a shape kind: the builders raise. *)
Lemma missing_term_specification :
  input None None = Raise (ValueError missing_terms_msg) /\
  output None None = Raise (ValueError missing_terms_msg).
Proof. done. Qed.
End Builders.

Lemma unsupported_shape_returns_no_variable_witness :
  ("bell" <> "triangular" /\ "bell" <> "gaussian" /\ "bell" <> "trapezoid") /\
  create_input_variable "speed" "" true 0 1 (1 # 2) false
    ["low"; "average"; "high"] (Some "bell") None 0 = Ok None /\
  create_output_variable "power" "" true 0 1 (1 # 2) false (Some Maximum)
    (Some (Centroid 50)) ["low"; "average"; "high"] (Some "bell") None 0 =
    Ok None.
Proof.
  split; [repeat split; discriminate|].
  apply (unsupported_shape_returns_no_variable "speed" "" true 0 1 (1 # 2)
           false ["low"; "average"; "high"] (Some Maximum)
           (Some (Centroid 50)) 0 "bell" None); discriminate.
Defined.

(** C1 as stated fails: with a shape kind and explicit terms together the
    variable carries the synthesized terms, not the explicit ones. *)
Lemma shape_kind_overrides_explicit_terms :
  (exists v,
     create_input_variable "speed" "" true 0 1 (1 # 2) false ["low"; "high"]
       (Some "triangular") (Some [Gaussian "mine" 0 1]) 0 = Ok (Some v) /\
     map term_name (terms v) = ["low"; "high"] /\
     terms v <> [Gaussian "mine" 0 1]) /\
  (exists v,
     create_output_variable "power" "" true 0 1 (1 # 2) false (Some Maximum)
       (Some (Centroid 50)) ["low"; "high"] (Some "triangular")
       (Some [Gaussian "mine" 0 1]) 0 = Ok (Some v) /\
     map term_name (terms v) = ["low"; "high"] /\
     terms v <> [Gaussian "mine" 0 1]).
Proof.
  split; eexists; (split; [reflexivity|]); (split; [reflexivity|]);
    discriminate.
Qed.

(** C8 as stated fails: with an unsupported shape kind the builders raise
    no error; they complete and return no variable. *)
Lemma unsupported_shape_raises_nothing :
  create_input_variable "speed" "" true 0 1 (1 # 2) false
    ["low"; "average"; "high"] (Some "bell") None 0 = Ok None /\
  create_output_variable "power" "" true 0 1 (1 # 2) false (Some Maximum)
    (Some (Centroid 50)) ["low"; "average"; "high"] (Some "bell") None 0 =
    Ok None.
Proof. split; reflexivity. Qed.

(** ** Registering variables *)

Lemma is_valid_false_iff {V} (name_of : V -> string) (x : string)
    (l : list V) :
  _is_valid_variable_name name_of x l = false <->
  exists w, w ∈ l /\ name_of w = x.
Proof.
  induction l as [|v l IH]; simpl.
  - split; [done|]. intros (w & Hw & _). by apply elem_of_nil in Hw.
  - destruct (String.eqb_spec (name_of v) x) as [E|E].
    + split; [|done]. intros _. exists v. split; [left|done].
    + rewrite IH. split.
      * intros (w & Hw & Hx). exists w. split; [by right|done].
      * intros (w & Hw & Hx). apply elem_of_cons in Hw as [->|Hw]; [done|].
        by exists w.
Qed.

Lemma add_input_variable_cases (s : FIS) (v : InputVariable) :
  ((exists u, u ∈ input_variables (engine s) /\ name u = name v) /\
   add_input_variable v s = (s, Raise (ValueError duplicate_name_msg))) \/
  (~ (exists u, u ∈ input_variables (engine s) /\ name u = name v) /\
   add_input_variable v s =
     (set_engine
        (set_input_variables (input_variables (engine s) ++ [v]) (engine s))
        s, Ok tt)).
Proof.
  pose proof (is_valid_false_iff name (name v) (input_variables (engine s)))
    as Hi.
  unfold add_input_variable. unfold_monad.
  destruct (_is_valid_variable_name name (name v) _); simpl.
  - right. split; [|done]. intros H. by apply Hi in H.
  - left. split; [|done]. by apply Hi.
Qed.

Lemma add_output_variable_cases (s : FIS) (w : OutputVariable) :
  ((exists u : OutputVariable,
      u ∈ output_variables (engine s) /\ name u = name w) /\
   add_output_variable w s = (s, Raise (ValueError duplicate_name_msg))) \/
  (~ (exists u : OutputVariable,
        u ∈ output_variables (engine s) /\ name u = name w) /\
   add_output_variable w s =
     (set_engine
        (set_output_variables (output_variables (engine s) ++ [w]) (engine s))
        s, Ok tt)).
Proof.
  pose proof (is_valid_false_iff (fun u : OutputVariable => name u) (name w)
                (output_variables (engine s))) as Ho.
  unfold add_output_variable. unfold_monad.
  destruct (_is_valid_variable_name _ (name w) _); simpl.
  - right. split; [|done]. intros H. by apply Ho in H.
  - left. split; [|done]. by apply Ho.
Qed.

(** Registering through [add_input_variable] keeps the names of the input
    variables distinct. *)
Lemma add_input_variable_names_distinct (s : FIS) (v : InputVariable) :
  NoDup (map name (input_variables (engine s))) ->
  NoDup (map name (input_variables (engine (fst (add_input_variable v s))))).
Proof.
  intros Hnd.
  destruct (add_input_variable_cases s v) as [[_ E]|[Hfresh E]]; rewrite E;
    simpl; [done|].
  rewrite fmap_app. apply NoDup_app. split; [done|]. split.
  - intros x Hx Hv. apply list_elem_of_singleton in Hv as ->.
    apply list_elem_of_fmap in Hx as (u & Hu & Hin). apply Hfresh. by exists u.
  - apply NoDup_singleton.
Qed.

(** C7: [add_input_variable] raises the duplicate-name error exactly when
    an input variable of that name is registered, and then leaves the
    session as it was; otherwise it appends the variable.
    [add_output_variable] does the same against the output variables.
    Each check reads its own list only, so one name can be registered once
    as an input and once as an output. *)
Theorem add_variable_name_uniqueness (s : FIS) (v : InputVariable)
    (w : OutputVariable) :
  ((exists u, u ∈ input_variables (engine s) /\ name u = name v) <->
   add_input_variable v s = (s, Raise (ValueError duplicate_name_msg))) /\
  (~ (exists u, u ∈ input_variables (engine s) /\ name u = name v) <->
   add_input_variable v s =
     (set_engine
        (set_input_variables (input_variables (engine s) ++ [v]) (engine s))
        s, Ok tt)) /\
  ((exists u : OutputVariable,
      u ∈ output_variables (engine s) /\ name u = name w) <->
   add_output_variable w s = (s, Raise (ValueError duplicate_name_msg))) /\
  (~ (exists u : OutputVariable,
        u ∈ output_variables (engine s) /\ name u = name w) <->
   add_output_variable w s =
     (set_engine
        (set_output_variables (output_variables (engine s) ++ [w]) (engine s))
        s, Ok tt)) /\
  (name w = name v ->
   ~ (exists u, u ∈ input_variables (engine s) /\ name u = name v) ->
   ~ (exists u : OutputVariable,
        u ∈ output_variables (engine s) /\ name u = name w) ->
   exists s1 s2,
     add_input_variable v s = (s1, Ok tt) /\
     add_output_variable w s1 = (s2, Ok tt) /\
     v ∈ input_variables (engine s2) /\ w ∈ output_variables (engine s2)).
Proof.
  split; [|split; [|split; [|split]]].
  - destruct (add_input_variable_cases s v) as [[H E]|[H E]]; rewrite E.
    + done.
    + split; [done|]. intros [= _].
  - destruct (add_input_variable_cases s v) as [[H E]|[H E]]; rewrite E.
    + split; [done|]. intros [= _].
    + done.
  - destruct (add_output_variable_cases s w) as [[H E]|[H E]]; rewrite E.
    + done.
    + split; [done|]. intros [= _].
  - destruct (add_output_variable_cases s w) as [[H E]|[H E]]; rewrite E.
    + split; [done|]. intros [= _].
    + done.
  - intros Hn Hni Hno.
    destruct (add_input_variable_cases s v) as [[H E]|[_ E]]; [done|].
    rewrite E. eexists _, _. split; [done|].
    match goal with |- add_output_variable w ?s1 = _ /\ _ =>
      destruct (add_output_variable_cases s1 w) as [[H E']|[_ E']] end.
    + by destruct Hno.
    + rewrite E'. split; [done|]. simpl.
      split; apply elem_of_app; right; by left.
Qed.

Lemma add_variable_name_uniqueness_witness :
  add_input_variable (demo_input "x") demo_session =
    (demo_session, Raise (ValueError duplicate_name_msg)) /\
  add_output_variable (demo_output "x") demo_session =
    (set_engine
       (set_output_variables
          (output_variables (engine demo_session) ++ [demo_output "x"])
          (engine demo_session))
       demo_session, Ok tt).
Proof.
  destruct (add_variable_name_uniqueness demo_session (demo_input "x")
              (demo_output "x")) as (Hin & _ & _ & Hout & _).
  split.
  - apply Hin. exists (demo_input "x"). split; [left|reflexivity].
  - apply Hout. intros (u & Hu & Hx).
    apply list_elem_of_singleton in Hu as ->. discriminate.
Defined.

(** ** Rule blocks *)

Lemma run_calls_app Rc P (cs1 cs2 : list call) (s : FIS) :
  run_calls Rc P (cs1 ++ cs2) s = run_calls Rc P cs2 (run_calls Rc P cs1 s).
Proof. revert s. induction cs1 as [|c cs1 IH]; intros s; simpl; [done|apply IH]. Qed.

(** C9, as the code has it: [create_rule_block] leaves the engine's list
    of rule blocks alone and every [add_rule_block] call appends one entry
    to it, so after a sequence of such calls the engine holds as many
    rule-block entries as there were [add_rule_block] calls. *)
Theorem engine_rule_blocks_count Rc P (cs : list call) (s : FIS) :
  forallb is_rule_block_call cs = true ->
  length (rule_blocks (engine (run_calls Rc P cs s))) =
  (length (rule_blocks (engine s)) + length (List.filter is_add_rule_block cs))%nat.
Proof.
  revert s. induction cs as [|c cs IH]; intros s Hcs; simpl in *.
  - lia.
  - apply andb_prop in Hcs as [Hc Hcs]. rewrite IH by done.
    destruct c; try discriminate; simpl.
    + lia.
    + rewrite length_app. simpl. lia.
Qed.

Lemma engine_rule_blocks_count_witness :
  forallb is_rule_block_call
    [CreateRuleBlock "" "" true (Some Minimum) (Some Maximum)
       (Some AlgebraicProduct) (Some General) None;
     AddRuleBlock;
     CreateRuleBlock "second" "" true (Some Minimum) (Some Maximum)
       (Some AlgebraicProduct) (Some General) None;
     AddRuleBlock] = true /\
  length
    (rule_blocks
       (engine
          (run_calls demo_Rule_create demo_process
             [CreateRuleBlock "" "" true (Some Minimum) (Some Maximum)
                (Some AlgebraicProduct) (Some General) None;
              AddRuleBlock;
              CreateRuleBlock "second" "" true (Some Minimum) (Some Maximum)
                (Some AlgebraicProduct) (Some General) None;
              AddRuleBlock]
             (__init__ "My FIS" "Fuzzy Inference System")))) = 2%nat.
Proof.
  split; [reflexivity|].
  apply (engine_rule_blocks_count demo_Rule_create demo_process
           [CreateRuleBlock "" "" true (Some Minimum) (Some Maximum)
              (Some AlgebraicProduct) (Some General) None;
            AddRuleBlock;
            CreateRuleBlock "second" "" true (Some Minimum) (Some Maximum)
              (Some AlgebraicProduct) (Some General) None;
            AddRuleBlock]
           (__init__ "My FIS" "Fuzzy Inference System")).
  reflexivity.
Defined.

(** C9 as stated fails: one [create_rule_block] followed by two
    [add_rule_block] calls leaves two entries (the same block twice) in
    the engine's list of rule blocks. *)
Lemma add_rule_block_twice_two_blocks :
  rule_blocks
    (engine
       (run_calls demo_Rule_create demo_process
          [CreateRuleBlock "" "" true (Some Minimum) (Some Maximum)
             (Some AlgebraicProduct) (Some General) None;
           AddRuleBlock; AddRuleBlock]
          (__init__ "My FIS" "Fuzzy Inference System"))) =
  [Some 0%nat; Some 0%nat].
Proof. reflexivity. Qed.

(** ** Assigning rules *)

Section Rules.
Variable Rule_create : string -> Engine -> Result Rule.

(** What [rule_block_update] does on a session whose current rule block
    is the block [b] at address [l]. *)
Lemma rule_block_update_at (f : list Rule -> list Rule) (s : FIS)
    (l : loc) (b : RuleBlock) :
  rule_block s = Some l -> store s !! l = Some b ->
  rule_block_update f s =
    (set_store (<[l := set_rules (f (rules b)) b]> (store s)) s, Ok tt).
Proof using Type.
  intros Hl Hb. unfold rule_block_update. unfold_monad.
  by rewrite Hl, Hb.
Qed.

(** The loop appends the compiled rules one by one and stops at the
    first text that does not compile. *)
Lemma add_rules_loop_prefix (en : Engine) (pre : list string)
    (compiled : list Rule) (rest : list string) :
  Forall2 (fun rule r => Rule_create rule en = Ok r) pre compiled ->
  forall (s : FIS) (l : loc) (b : RuleBlock),
  engine s = en -> rule_block s = Some l -> store s !! l = Some b ->
  add_rules_loop Rule_create (pre ++ rest) s =
  add_rules_loop Rule_create rest
    (set_store (<[l := set_rules (rules b ++ compiled) b]> (store s)) s).
Proof using Type.
  induction 1 as [|rule r pre compiled Hr Hpre IH]; intros s l b He Hl Hb.
  - simpl. rewrite app_nil_r.
    replace (set_rules (rules b) b) with b by by destruct b.
    rewrite list_insert_id by done. by destruct s.
  - simpl. unfold bind at 1. unfold get at 1. rewrite He, Hr.
    unfold bind at 1. rewrite (rule_block_update_at _ s l b) by done.
    rewrite (IH _ l (set_rules (rules b ++ [r]) b)); simpl.
    + rewrite list_insert_insert_eq. simpl. by rewrite <- app_assoc.
    + done.
    + done.
    + apply list_lookup_insert_eq. by eapply lookup_lt_Some.
Qed.

(** C4, as the code has it: the rule list is cleared first and filled
    in place, so when the text [bad] fails to compile after the texts
    [pre] have compiled to [compiled], the error of [bad] is raised at
    once, the remaining texts are not compiled, and the current rule
    block is left holding exactly [compiled]: the earlier rule list is
    gone and the rules compiled before the failure stay installed. *)
Theorem add_rules_from_list_stops_at_failure (pre : list string)
    (compiled : list Rule) (bad : string) (e : exn) (rest : list string)
    (s : FIS) (l : loc) (b : RuleBlock) :
  rule_block s = Some l -> store s !! l = Some b ->
  Forall2 (fun rule r => Rule_create rule (engine s) = Ok r) pre compiled ->
  Rule_create bad (engine s) = Raise e ->
  add_rules_from_list Rule_create (pre ++ bad :: rest) s =
    (set_store (<[l := set_rules compiled b]> (store s)) s, Raise e) /\
  current_rules
    (fst (add_rules_from_list Rule_create (pre ++ bad :: rest) s)) =
    Some compiled.
Proof using Type.
  intros Hl Hb Hpre Hbad.
  assert (Hlt : (l < length (store s))%nat) by by eapply lookup_lt_Some.
  assert (E : add_rules_from_list Rule_create (pre ++ bad :: rest) s =
    (set_store (<[l := set_rules compiled b]> (store s)) s, Raise e)).
  { unfold add_rules_from_list. unfold bind at 1.
    rewrite (rule_block_update_at _ s l b) by done.
    rewrite (add_rules_loop_prefix (engine s) pre compiled _ Hpre _ l
               (set_rules [] b)); simpl; try done.
    - rewrite list_insert_insert_eq. unfold_monad. by rewrite Hbad.
    - by apply list_lookup_insert_eq. }
  split; [done|]. rewrite E. unfold current_rules. simpl. rewrite Hl.
  by rewrite list_lookup_insert_eq.
Qed.

(** When every text compiles the new rules replace the old ones. *)
Lemma add_rules_from_list_replaces (rule_list : list string)
    (compiled : list Rule) (s : FIS) (l : loc) (b : RuleBlock) :
  rule_block s = Some l -> store s !! l = Some b ->
  Forall2 (fun rule r => Rule_create rule (engine s) = Ok r)
    rule_list compiled ->
  add_rules_from_list Rule_create rule_list s =
    (set_store (<[l := set_rules compiled b]> (store s)) s, Ok tt).
Proof using Type.
  intros Hl Hb Hall.
  assert (Hlt : (l < length (store s))%nat) by by eapply lookup_lt_Some.
  unfold add_rules_from_list. unfold bind at 1.
  rewrite (rule_block_update_at _ s l b) by done.
  rewrite <- (app_nil_r rule_list).
  rewrite (add_rules_loop_prefix (engine s) rule_list compiled _ Hall _ l
             (set_rules [] b)); simpl; try done.
  - by rewrite list_insert_insert_eq.
  - by apply list_lookup_insert_eq.
Qed.
End Rules.

Lemma add_rules_from_list_stops_at_failure_witness :
  (rule_block session_with_rule = Some 0%nat /\
   (exists b, store session_with_rule !! 0%nat = Some b /\
              rules b = [mkRule "if x is low then z is high"])) /\
  current_rules
    (fst (add_rules_from_list demo_Rule_create
            (["if x is high then z is low"] ++
             "x is low" :: ["if y is low then z is low"])
            session_with_rule)) =
  Some [mkRule "if x is high then z is low"].
Proof.
  split.
  - split; [reflexivity|]. eexists. split; reflexivity.
  - eapply (add_rules_from_list_stops_at_failure demo_Rule_create
              ["if x is high then z is low"]
              [mkRule "if x is high then z is low"] "x is low"
              (EngineError "syntax") ["if y is low then z is low"]
              session_with_rule 0%nat).
    + reflexivity.
    + reflexivity.
    + repeat constructor.
    + reflexivity.
Defined.

(** C4 as stated fails: a batch whose second text does not compile leaves
    the rule block with the first new rule only, which is neither the
    rule list held before the call nor the list of the whole batch. *)
Lemma failed_batch_leaves_truncated_rules :
  current_rules session_with_rule =
    Some [mkRule "if x is low then z is high"] /\
  exists s',
    add_rules_from_list demo_Rule_create
      ["if x is high then z is low"; "x is low"; "if y is low then z is low"]
      session_with_rule = (s', Raise (EngineError "syntax")) /\
    current_rules s' = Some [mkRule "if x is high then z is low"] /\
    current_rules s' <> current_rules session_with_rule.
Proof.
  split; [reflexivity|]. eexists. split; [reflexivity|].
  split; [reflexivity|]. discriminate.
Qed.

(** ** Inference *)

Lemma name_set_value (x : Q) (v : FlVariable) : name (set_value x v) = name v.
Proof. done. Qed.

(** With distinct names the engine's lookup by name finds the variable at
    the position the name was read from. *)
Lemma assign_input_at (x : Q) (done_ todo : list InputVariable)
    (t : InputVariable) :
  name t ∉ map name done_ ->
  assign_input (name t) x (done_ ++ t :: todo) =
    Some (done_ ++ set_value x t :: todo).
Proof.
  induction done_ as [|d done_ IH]; simpl; intros Hn.
  - by rewrite String.eqb_refl.
  - apply not_elem_of_cons in Hn as [Hd Hn].
    destruct (String.eqb_spec (name d) (name t)) as [E|_]; [done|].
    by rewrite IH.
Qed.

Lemma bound_inputs_nil (vars : list InputVariable) : bound_inputs [] vars = vars.
Proof. done. Qed.

Lemma bound_inputs_cons (x : Q) (rest : list Q) (t : InputVariable)
    (todo : list InputVariable) :
  bound_inputs (x :: rest) (t :: todo) = set_value x t :: bound_inputs rest todo.
Proof. done. Qed.

Lemma set_input_variables_same (s : FIS) :
  set_engine (set_input_variables (input_variables (engine s)) (engine s)) s = s.
Proof. by destruct s as [[] ? ? ?]. Qed.

(** The binding loop: position [i] of [inputs] goes to the variable at
    position [i]; a value with no variable at its position raises
    [IndexError] once the values before it have been assigned. *)
Lemma bind_inputs_spec (rest : list Q) :
  forall (done_ todo : list InputVariable) (s : FIS),
  input_variables (engine s) = (done_ ++ todo) ->
  NoDup (map name (done_ ++ todo)) ->
  bind_inputs (map name (done_ ++ todo)) (length done_) rest s =
    (set_engine
       (set_input_variables (done_ ++ bound_inputs rest todo) (engine s)) s,
     if Nat.leb (length rest) (length todo) then Ok tt else Raise IndexError).
Proof.
  induction rest as [|x rest IH]; intros done_ todo s Hs Hnd.
  - simpl. rewrite bound_inputs_nil, <- Hs. by rewrite set_input_variables_same.
  - simpl. rewrite list_lookup_fmap, lookup_app_r by done.
    rewrite Nat.sub_diag. destruct todo as [|t todo]; simpl.
    + unfold bound_inputs. simpl. rewrite <- Hs.
      by rewrite set_input_variables_same.
    + unfold bind at 1. unfold bind_input. unfold_monad.
      rewrite Hs. rewrite assign_input_at; last first.
      { rewrite fmap_app in Hnd. apply NoDup_app in Hnd as (_ & Hd & _).
        intros Hin. apply (Hd _ Hin). simpl. left. }
      simpl.
      pose proof (IH (done_ ++ [set_value x t]) todo
        (set_engine
           (set_input_variables (done_ ++ set_value x t :: todo) (engine s))
           s)) as IH'.
      rewrite length_app in IH'. simpl in IH'.
      replace (length done_ + 1)%nat with (S (length done_)) in IH' by lia.
      rewrite <- !app_assoc in IH'. simpl in IH'.
      rewrite !fmap_app in *. simpl in *.
      rewrite IH' by done. rewrite bound_inputs_cons. by destruct s as [[] ? ? ?].
Qed.

(** C5, as the code has it: [inference] does not compare the number of
    values with the number of input variables.  With no more values than
    variables the leading variables are assigned position by position,
    the evaluation pass runs on the engine so assigned, and the call
    raises only what the evaluation raises or, when the engine holds no
    output variable, the [IndexError] of the output read; otherwise it
    stores the value of the first output variable and returns.  With more
    values than variables every input variable is assigned and
    [IndexError] is then raised, before the evaluation pass.  (Names of
    the registered input variables are distinct, as [add_input_variable]
    ensures.) *)
Theorem inference_has_no_count_check (process : Process) (inputs : list Q)
    (s : FIS) :
  NoDup (map name (input_variables (engine s))) ->
  ((length inputs <= length (input_variables (engine s)))%nat ->
   inference process inputs s =
   match process (store s) (engine (with_inputs inputs s)) with
   | (e, Raise x) => (set_engine e (with_inputs inputs s), Raise x)
   | (e, Ok _) =>
       match output_variables e with
       | [] => (set_engine e (with_inputs inputs s), Raise IndexError)
       | v :: _ =>
           (set_output (value v) (set_engine e (with_inputs inputs s)), Ok tt)
       end
   end) /\
  ((length (input_variables (engine s)) < length inputs)%nat ->
   inference process inputs s = (with_inputs inputs s, Raise IndexError)).
Proof.
  intros Hnd.
  pose proof (bind_inputs_spec inputs [] (input_variables (engine s)) s
                eq_refl Hnd) as Hb.
  simpl in Hb. fold (with_inputs inputs s) in Hb.
  split; intros Hlen; unfold inference, get_input_variable_names;
    unfold bind at 1; unfold bind at 1; unfold get at 1; unfold ret at 1;
    unfold bind at 1; rewrite Hb.
  - apply Nat.leb_le in Hlen. rewrite Hlen.
    unfold bind at 1. unfold call_process at 1.
    change (store (with_inputs inputs s)) with (store s).
    destruct (process (store s) (engine (with_inputs inputs s)))
      as [e [[]|x]]; [|done].
    unfold get_output_variable_names. unfold_monad.
    destruct (output_variables e) as [|v vs] eqn:Ev; simpl; [done|].
    rewrite Ev. simpl. by rewrite String.eqb_refl.
  - apply Nat.leb_gt in Hlen. rewrite Hlen. done.
Qed.

Lemma demo_session_names :
  NoDup (map name (input_variables (engine demo_session))).
Proof.
  repeat (constructor;
    [intros H; repeat (apply elem_of_cons in H as [H|H]; [discriminate|]);
     by apply elem_of_nil in H|]).
  constructor.
Qed.

Lemma inference_has_no_count_check_witness :
  NoDup (map name (input_variables (engine demo_session))) /\
  inference demo_process [3; 4; 5] demo_session =
    (with_inputs [3; 4; 5] demo_session, Raise IndexError) /\
  (exists s',
     inference demo_process [3] demo_session = (s', Ok tt) /\
     map value (input_variables (engine s')) = [Some 3; None] /\
     output s' = Some 3).
Proof.
  split; [exact demo_session_names|].
  destruct (inference_has_no_count_check demo_process [3; 4; 5] demo_session
              demo_session_names) as [_ Hmore].
  destruct (inference_has_no_count_check demo_process [3] demo_session
              demo_session_names) as [Hfewer _].
  split.
  - apply Hmore. simpl. lia.
  - eexists. split; [|split].
    + rewrite Hfewer by (simpl; lia). reflexivity.
    + reflexivity.
    + reflexivity.
Defined.

(** C5 as stated fails: on a session with two input variables, one value
    is accepted without any error, and three values are rejected only
    after both variables have been assigned. *)
Lemma mismatched_input_count_not_rejected_before_binding :
  map value (input_variables (engine demo_session)) = [None; None] /\
  (exists s',
     inference demo_process [3] demo_session = (s', Ok tt) /\
     map value (input_variables (engine s')) = [Some 3; None] /\
     output s' = Some 3) /\
  (exists s',
     inference demo_process [3; 4; 5] demo_session = (s', Raise IndexError) /\
     map value (input_variables (engine s')) = [Some 3; Some 4]).
Proof.
  split; [reflexivity|].
  split; eexists; (split; [reflexivity|]); try split; reflexivity.
Qed.

(** ** The output attribute *)

Lemma preserves_output_bind {A B} (m : M A) (k : A -> M B) :
  preserves_output m -> (forall a, preserves_output (k a)) ->
  preserves_output (bind m k).
Proof.
  intros Hm Hk s. unfold bind. specialize (Hm s).
  destruct (m s) as [s1 [a|e]]; simpl in *; [|done].
  by rewrite Hk.
Qed.

Lemma preserves_output_rule_block_update (f : list Rule -> list Rule) :
  preserves_output (rule_block_update f).
Proof.
  intros s. unfold rule_block_update. unfold_monad.
  destruct (rule_block s) as [l|]; [|done]. by destruct (store s !! l).
Qed.

Lemma preserves_output_add_rules_loop Rc (rule_list : list string) :
  preserves_output (add_rules_loop Rc rule_list).
Proof.
  induction rule_list as [|rule rest IH]; [done|]. simpl.
  apply preserves_output_bind; [done|]. intros s.
  destruct (Rc rule (engine s)); [|done].
  apply preserves_output_bind; [|done].
  apply preserves_output_rule_block_update.
Qed.

Lemma preserves_output_run_call Rc P (c : call) :
  is_inference c = false -> preserves_output (run_call Rc P c).
Proof.
  destruct c; try discriminate; intros _ s; simpl.
  - done.
  - done.
  - unfold add_input_variable. unfold_monad.
    by destruct (_is_valid_variable_name _ _ _).
  - unfold add_output_variable. unfold_monad.
    by destruct (_is_valid_variable_name _ _ _).
  - apply preserves_output_bind.
    + apply preserves_output_rule_block_update.
    + intros _. apply preserves_output_add_rules_loop.
Qed.

Lemma find_output_first (v : OutputVariable) (rest : list OutputVariable) :
  find_output (name v) (v :: rest) = Some v.
Proof. simpl. by rewrite String.eqb_refl. Qed.

(** C10: [inference] returns nothing (its result is the unit value); the
    crisp result is left in the session's [output] attribute, which is 0.0
    in a new session, stays 0.0 under every method other than
    [inference], and after a call of [inference] that raises nothing is
    the value of the first registered output variable. *)
Theorem inference_result_in_output :
  (forall name description : string,
     output (__init__ name description) = Some 0) /\
  (forall Rc P (cs : list call) (name description : string),
     forallb (fun c => negb (is_inference c)) cs = true ->
     output (run_calls Rc P cs (__init__ name description)) = Some 0) /\
  (forall (P : Process) (inputs : list Q) (s s' : FIS) (r : unit),
     inference P inputs s = (s', Ok r) ->
     r = tt /\
     exists v : OutputVariable,
       output_variables (engine s') !! 0%nat = Some v /\
       output s' = value v).
Proof.
  split; [done|]. split.
  - intros Rc P cs name description.
    generalize (__init__ name description), (eq_refl : output (__init__ name description) = Some 0).
    induction cs as [|c cs IH]; intros s Hs Hcs; simpl in *; [done|].
    apply andb_prop in Hcs as [Hc Hcs]. apply IH; [|done].
    rewrite preserves_output_run_call; [done|].
    by destruct (is_inference c).
  - intros P inputs s s' [] H. split; [done|].
    unfold inference, get_input_variable_names in H.
    unfold bind at 1 2 in H. unfold get at 1 in H. unfold ret at 1 in H.
    unfold bind at 1 in H.
    destruct (bind_inputs _ 0 inputs s) as [s1 [[]|e]]; [|discriminate].
    unfold bind at 1 in H. unfold call_process at 1 in H.
    destruct (P (store s1) (engine s1)) as [e1 [[]|e]]; [|discriminate].
    unfold get_output_variable_names in H. unfold_monad.
    destruct (output_variables e1) as [|v vs] eqn:Ev; simpl in H;
      [discriminate|].
    rewrite Ev, find_output_first in H. injection H as <-. simpl.
    rewrite Ev. by exists v.
Qed.

Lemma inference_result_in_output_witness :
  exists v : OutputVariable,
    output_variables
      (engine (fst (inference demo_process [3; 4] demo_session))) !! 0%nat =
      Some v /\
    output (fst (inference demo_process [3; 4] demo_session)) = value v /\
    value v = Some 3.
Proof.
  destruct (proj2 (proj2 inference_result_in_output) demo_process [3; 4]
              demo_session (fst (inference demo_process [3; 4] demo_session))
              tt eq_refl) as [_ [v [Hv Ho]]].
  exists v. split; [exact Hv|]. split; [exact Ho|].
  rewrite <- Ho. reflexivity.
Defined.

(** * Further properties of the variable builders *)

Section BuilderResults.
Variables (variable_name variable_description : string) (enable : bool).
Variables (lo hi ratio : Q) (lock : bool) (labels : list string).
Variables (agg : option SNorm) (defuzz : option Defuzzifier) (ov : Q).

(** X13: the two builders agree: on the same arguments
    [create_output_variable] raises what [create_input_variable] raises,
    returns nothing when it returns nothing, and otherwise returns the
    same variable with the aggregation and the defuzzifier attached. *)
Theorem output_builder_extends_input_builder
    (auto_mf_type : option string) (ts : option (list Term)) :
  create_output_variable variable_name variable_description enable lo hi
    ratio lock agg defuzz labels auto_mf_type ts ov =
  match
    create_input_variable variable_name variable_description enable lo hi
      ratio lock labels auto_mf_type ts ov
  with
  | Ok (Some v) => Ok (Some (mkOutputVariable v agg defuzz))
  | Ok None => Ok None
  | Raise e => Raise e
  end.
Proof using Type.
  unfold create_input_variable, create_output_variable.
  destruct auto_mf_type as [kind|]; [|by destruct ts].
  change (is_None (Some kind)) with false. cbv iota. simpl andb. cbv iota.
  destruct (shape_is (Some kind) "triangular").
  { by destruct (_create_triangular_mf labels lo hi ov). }
  destruct (shape_is (Some kind) "gaussian").
  { by destruct (_create_gaussian_mf labels lo hi ov). }
  destruct (shape_is (Some kind) "trapezoid").
  { by destruct (_create_trapezoid_mf labels lo hi ratio ov). }
  done.
Qed.
End BuilderResults.

(** * Further properties of the session *)

Lemma only_current_rules_bind {A B} (m : M A) (k : A -> M B) :
  only_current_rules m -> (forall a, only_current_rules (k a)) ->
  only_current_rules (bind m k).
Proof.
  intros Hm Hk s. unfold bind. specialize (Hm s).
  destruct (m s) as [s1 [a|e]]; simpl in *; [|done].
  destruct Hm as (He & Hr & Ho & Hl & Hs).
  destruct (Hk a s1) as (He' & Hr' & Ho' & Hl' & Hs').
  rewrite He', Hr', Ho', Hl'. repeat split; try done.
  intros l Hne. rewrite Hs' by by rewrite Hr. by apply Hs.
Qed.

Lemma only_current_rules_update (f : list Rule -> list Rule) :
  only_current_rules (rule_block_update f).
Proof.
  intros s. unfold rule_block_update. unfold_monad.
  destruct (rule_block s) as [l|] eqn:El; [|done].
  destruct (store s !! l) as [b|] eqn:Eb; [|done]. simpl.
  repeat split; try done.
  - apply length_insert.
  - intros l' Hne. apply list_lookup_insert_ne. congruence.
Qed.

Lemma only_current_rules_loop Rc (rule_list : list string) :
  only_current_rules (add_rules_loop Rc rule_list).
Proof.
  induction rule_list as [|rule rest IH]; [done|]. simpl.
  apply only_current_rules_bind; [done|]. intros s.
  destruct (Rc rule (engine s)); [|done].
  apply only_current_rules_bind; [|done]. apply only_current_rules_update.
Qed.

Lemma only_current_rules_add_rules Rc (rule_list : list string) :
  only_current_rules (add_rules_from_list Rc rule_list).
Proof.
  apply only_current_rules_bind; [apply only_current_rules_update|].
  intros _. apply only_current_rules_loop.
Qed.

Lemma add_output_variable_names_distinct (s : FIS) (w : OutputVariable) :
  NoDup (map (fun u : OutputVariable => name u) (output_variables (engine s))) ->
  NoDup (map (fun u : OutputVariable => name u)
           (output_variables (engine (fst (add_output_variable w s))))).
Proof.
  intros Hnd.
  destruct (add_output_variable_cases s w) as [[_ E]|[Hfresh E]]; rewrite E;
    simpl; [done|].
  rewrite fmap_app. apply NoDup_app. split; [done|]. split.
  - intros x Hx Hv. apply list_elem_of_singleton in Hv as ->.
    apply list_elem_of_fmap in Hx as (u & Hu & Hin). apply Hfresh. by exists u.
  - apply NoDup_singleton.
Qed.

Lemma add_input_variable_outputs (s : FIS) (v : InputVariable) :
  output_variables (engine (fst (add_input_variable v s))) =
  output_variables (engine s).
Proof.
  by destruct (add_input_variable_cases s v) as [[_ E]|[_ E]]; rewrite E.
Qed.

Lemma add_output_variable_inputs (s : FIS) (w : OutputVariable) :
  input_variables (engine (fst (add_output_variable w s))) =
  input_variables (engine s).
Proof.
  by destruct (add_output_variable_cases s w) as [[_ E]|[_ E]]; rewrite E.
Qed.

(** X14: whatever methods other than [inference] are called on a new
    session, in whatever order and whether they raise or not, the
    registered input variables have pairwise distinct names and so have
    the registered output variables. *)
Theorem registered_names_stay_distinct Rc P (cs : list call)
    (session_name session_description : string) :
  no_inference cs = true ->
  NoDup (map name
           (input_variables
              (engine (run_calls Rc P cs
                         (__init__ session_name session_description))))) /\
  NoDup (map (fun u : OutputVariable => name u)
           (output_variables
              (engine (run_calls Rc P cs
                         (__init__ session_name session_description))))).
Proof.
  assert (H0 : NoDup (map name (input_variables
                 (engine (__init__ session_name session_description)))) /\
               NoDup (map (fun u : OutputVariable => name u) (output_variables
                 (engine (__init__ session_name session_description)))))
    by (split; constructor).
  revert H0. generalize (__init__ session_name session_description).
  induction cs as [|c cs IH]; intros s [Hi Ho] Hcs; simpl in *; [done|].
  apply andb_prop in Hcs as [Hc Hcs]. apply IH; [|done].
  destruct c; try discriminate; simpl.
  - done.
  - done.
  - split; [by apply add_input_variable_names_distinct|].
    by rewrite add_input_variable_outputs.
  - split; [|by apply add_output_variable_names_distinct].
    by rewrite add_output_variable_inputs.
  - by destruct (only_current_rules_add_rules Rc rule_list s) as (-> & _).
Qed.

Lemma registered_names_stay_distinct_witness :
  no_inference
    [AddInputVariable (demo_input "x"); AddInputVariable (demo_input "x");
     AddOutputVariable (demo_output "x"); AddRulesFromList ["if"]] = true /\
  NoDup (map name
           (input_variables
              (engine (run_calls demo_Rule_create demo_process
                         [AddInputVariable (demo_input "x");
                          AddInputVariable (demo_input "x");
                          AddOutputVariable (demo_output "x");
                          AddRulesFromList ["if"]]
                         (__init__ "My FIS" ""))))) /\
  NoDup (map (fun u : OutputVariable => name u)
           (output_variables
              (engine (run_calls demo_Rule_create demo_process
                         [AddInputVariable (demo_input "x");
                          AddInputVariable (demo_input "x");
                          AddOutputVariable (demo_output "x");
                          AddRulesFromList ["if"]]
                         (__init__ "My FIS" ""))))).
Proof.
  split; [reflexivity|].
  apply (registered_names_stay_distinct demo_Rule_create demo_process
           [AddInputVariable (demo_input "x");
            AddInputVariable (demo_input "x");
            AddOutputVariable (demo_output "x"); AddRulesFromList ["if"]]
           "My FIS" "").
  reflexivity.
Defined.

Lemma run_add_inputs Rc P (vs : list InputVariable) (s : FIS) :
  NoDup (map name (input_variables (engine s) ++ vs)) ->
  run_calls Rc P (map AddInputVariable vs) s =
  set_engine
    (set_input_variables (input_variables (engine s) ++ vs) (engine s)) s.
Proof.
  revert s. induction vs as [|v vs IH]; intros s Hnd; simpl.
  - rewrite app_nil_r. by rewrite set_input_variables_same.
  - destruct (add_input_variable_cases s v) as [[(u & Hu & Hn) _]|[_ E]].
    + exfalso. rewrite fmap_app in Hnd.
      apply NoDup_app in Hnd as (_ & Hd & _).
      apply (Hd (name v)).
      * rewrite <- Hn. by apply list_elem_of_fmap_2.
      * simpl. left.
    + rewrite E. simpl. rewrite IH; simpl.
      * by rewrite <- app_assoc.
      * by rewrite <- app_assoc.
Qed.

(** X15: input variables with pairwise distinct names, registered one
    after the other on a new session, are all accepted and are held in
    the order of registration; [get_input_variable_names] returns their
    names in that order and changes nothing. *)
Theorem registration_order_kept Rc P (vs : list InputVariable)
    (session_name session_description : string) :
  NoDup (map name vs) ->
  input_variables
    (engine (run_calls Rc P (map AddInputVariable vs)
               (__init__ session_name session_description))) = vs /\
  get_input_variable_names
    (run_calls Rc P (map AddInputVariable vs)
       (__init__ session_name session_description)) =
  (run_calls Rc P (map AddInputVariable vs)
     (__init__ session_name session_description),
   Ok (map name vs)).
Proof.
  intros Hnd. rewrite run_add_inputs by done. simpl. split; [done|].
  unfold get_input_variable_names. by unfold_monad.
Qed.

Lemma registration_order_kept_witness :
  NoDup (map name [demo_input "y"; demo_input "x"]) /\
  input_variables
    (engine (run_calls demo_Rule_create demo_process
               (map AddInputVariable [demo_input "y"; demo_input "x"])
               (__init__ "My FIS" ""))) =
    [demo_input "y"; demo_input "x"] /\
  get_input_variable_names
    (run_calls demo_Rule_create demo_process
       (map AddInputVariable [demo_input "y"; demo_input "x"])
       (__init__ "My FIS" "")) =
  (run_calls demo_Rule_create demo_process
     (map AddInputVariable [demo_input "y"; demo_input "x"])
     (__init__ "My FIS" ""),
   Ok ["y"; "x"]).
Proof.
  assert (Hnd : NoDup (map name [demo_input "y"; demo_input "x"])).
  { repeat (constructor;
      [intros H; repeat (apply elem_of_cons in H as [H|H]; [discriminate|]);
       by apply elem_of_nil in H|]).
    constructor. }
  split; [exact Hnd|].
  exact (registration_order_kept demo_Rule_create demo_process
           [demo_input "y"; demo_input "x"] "My FIS" "" Hnd).
Defined.

(** ** Rule blocks and their rules *)

Lemma keeps_bind {A B C} (component : FIS -> C) (m : M A) (k : A -> M B) :
  keeps component m -> (forall a, keeps component (k a)) ->
  keeps component (bind m k).
Proof.
  intros Hm Hk s. unfold bind. specialize (Hm s).
  destruct (m s) as [s1 [a|e]]; simpl in *; [|done].
  by rewrite Hk.
Qed.

Lemma keeps_get {B C} (component : FIS -> C) (k : FIS -> M B) :
  (forall s, component (fst (k s s)) = component s) ->
  keeps component (bind get k).
Proof. intros Hk s. unfold bind, get. apply Hk. Qed.

(** The session's reference to its rule block and the store of rule
    blocks are out of reach of the binding loop and of the evaluation. *)
Lemma keeps_blocks_bind_inputs (names : list string) (inputs : list Q) :
  forall i, keeps (fun s => (rule_block s, store s, output s))
              (bind_inputs names i inputs).
Proof.
  induction inputs as [|x rest IH]; intros i; [done|]. simpl.
  destruct (names !! i) as [str_input|]; [|done].
  apply keeps_bind; [|done].
  intros s. unfold bind_input. unfold_monad.
  by destruct (assign_input _ _ _).
Qed.

Lemma keeps_blocks_call_process (P : Process) :
  keeps (fun s => (rule_block s, store s, output s)) (call_process P).
Proof. intros s. unfold call_process. by destruct (P _ _). Qed.

Lemma keeps_blocks_inference (P : Process) (inputs : list Q) :
  keeps (fun s => (rule_block s, store s)) (inference P inputs).
Proof.
  assert (Hweak : forall A (m : M A),
            keeps (fun s => (rule_block s, store s, output s)) m ->
            keeps (fun s => (rule_block s, store s)) m).
  { intros A m Hm s. specialize (Hm s). by injection Hm as -> ->. }
  unfold inference. apply keeps_bind; [done|]. intros names.
  apply keeps_bind; [apply Hweak, keeps_blocks_bind_inputs|]. intros _.
  apply keeps_bind; [apply Hweak, keeps_blocks_call_process|]. intros _.
  apply keeps_bind; [done|]. intros out.
  destruct (out !! 0%nat) as [str_output|]; [|done].
  apply keeps_get. intros s.
  by destruct (find_output _ _).
Qed.

Lemma keeps_rule_block_run_call Rc P (c : call) :
  is_create_rule_block c = false -> keeps rule_block (run_call Rc P c).
Proof.
  destruct c; try discriminate; intros _ s; simpl.
  - done.
  - by destruct (add_input_variable_cases s variable) as [[_ E]|[_ E]];
      rewrite E.
  - by destruct (add_output_variable_cases s variable) as [[_ E]|[_ E]];
      rewrite E.
  - by destruct (only_current_rules_add_rules Rc rule_list s) as (_ & -> & _).
  - pose proof (keeps_blocks_inference P inputs s) as H. simpl in H.
    by injection H as -> _.
Qed.

(** X16: when every text of the list compiles, [add_rules_from_list]
    leaves the current rule block holding exactly the compiled rules, in
    the order of the list, whatever rules it held before, and leaves the
    engine as it was; calling it again with the same list changes
    nothing. *)
Theorem add_rules_from_list_replaces_and_repeats Rc
    (rule_list : list string) (compiled : list Rule) (s : FIS) (l : loc)
    (b : RuleBlock) :
  rule_block s = Some l -> store s !! l = Some b ->
  Forall2 (fun rule r => Rc rule (engine s) = Ok r) rule_list compiled ->
  exists s1,
    add_rules_from_list Rc rule_list s = (s1, Ok tt) /\
    current_rules s1 = Some compiled /\
    engine s1 = engine s /\
    add_rules_from_list Rc rule_list s1 = (s1, Ok tt).
Proof.
  intros Hl Hb Hall.
  assert (Hlt : (l < length (store s))%nat) by by eapply lookup_lt_Some.
  rewrite (add_rules_from_list_replaces Rc rule_list compiled s l b) by done.
  eexists. split; [reflexivity|]. split; [|split; [done|]].
  - unfold current_rules. simpl. rewrite Hl.
    by rewrite list_lookup_insert_eq.
  - rewrite (add_rules_from_list_replaces Rc rule_list compiled _ l
               (set_rules compiled b)); simpl; try done.
    + by rewrite list_insert_insert_eq.
    + by apply list_lookup_insert_eq.
Qed.

Lemma add_rules_from_list_replaces_and_repeats_witness :
  (rule_block session_with_rule = Some 0%nat /\
   (exists b, store session_with_rule !! 0%nat = Some b) /\
   Forall2
     (fun rule r => demo_Rule_create rule (engine session_with_rule) = Ok r)
     ["if x is high then z is low"; "if y is low then z is low"]
     [mkRule "if x is high then z is low";
      mkRule "if y is low then z is low"]) /\
  exists s1,
    add_rules_from_list demo_Rule_create
      ["if x is high then z is low"; "if y is low then z is low"]
      session_with_rule = (s1, Ok tt) /\
    current_rules s1 =
      Some [mkRule "if x is high then z is low";
            mkRule "if y is low then z is low"] /\
    engine s1 = engine session_with_rule /\
    add_rules_from_list demo_Rule_create
      ["if x is high then z is low"; "if y is low then z is low"] s1 =
      (s1, Ok tt).
Proof.
  assert (Hall : Forall2
     (fun rule r => demo_Rule_create rule (engine session_with_rule) = Ok r)
     ["if x is high then z is low"; "if y is low then z is low"]
     [mkRule "if x is high then z is low";
      mkRule "if y is low then z is low"]) by (repeat constructor).
  split; [split; [reflexivity|split; [by eexists|exact Hall]]|].
  exact (add_rules_from_list_replaces_and_repeats demo_Rule_create _ _
           session_with_rule 0%nat _ eq_refl eq_refl Hall).
Defined.

(** X17: as long as [create_rule_block] has not been called on a
    session, [add_rules_from_list] raises the attribute error of the
    missing rule block for every rule list, before compiling anything,
    and leaves the session as it was. *)
Theorem add_rules_needs_rule_block Rc P (cs : list call)
    (rule_list : list string) (session_name session_description : string) :
  forallb (fun c => negb (is_create_rule_block c)) cs = true ->
  add_rules_from_list Rc rule_list
    (run_calls Rc P cs (__init__ session_name session_description)) =
  (run_calls Rc P cs (__init__ session_name session_description),
   Raise AttributeError).
Proof.
  intros Hcs.
  assert (Hnone : rule_block
            (run_calls Rc P cs (__init__ session_name session_description)) =
            None).
  { assert (H0 : rule_block (__init__ session_name session_description) = None)
      by done.
    revert H0. generalize (__init__ session_name session_description).
    induction cs as [|c cs IH]; intros s Hs; simpl in *; [done|].
    apply andb_prop in Hcs as [Hc Hcs]. apply IH; [done|].
    rewrite keeps_rule_block_run_call; [done|].
    by destruct (is_create_rule_block c). }
  unfold add_rules_from_list, rule_block_update. unfold_monad.
  by rewrite Hnone.
Qed.

Lemma add_rules_needs_rule_block_witness :
  forallb (fun c => negb (is_create_rule_block c))
    [AddInputVariable (demo_input "x"); AddRuleBlock; Inference [1]] = true /\
  add_rules_from_list demo_Rule_create ["if x is low then z is high"]
    (run_calls demo_Rule_create demo_process
       [AddInputVariable (demo_input "x"); AddRuleBlock; Inference [1]]
       (__init__ "My FIS" "")) =
  (run_calls demo_Rule_create demo_process
     [AddInputVariable (demo_input "x"); AddRuleBlock; Inference [1]]
     (__init__ "My FIS" ""),
   Raise AttributeError).
Proof.
  split; [reflexivity|].
  apply (add_rules_needs_rule_block demo_Rule_create demo_process
           [AddInputVariable (demo_input "x"); AddRuleBlock; Inference [1]]
           ["if x is low then z is high"] "My FIS" "").
  reflexivity.
Defined.

Section Sharing.
Variables (Rc : string -> Engine -> Result Rule) (P : Process).
Variables (rule_name rule_description : string) (enabled_ : bool).
Variables (cj : option TNorm) (dj : option SNorm) (im : option TNorm).
Variables (ac : option Activation) (initial : option (list Rule)).

(** X18: the rule block that [add_rule_block] hands to the engine is
    the session's own block, not a copy: after [create_rule_block] and
    [add_rule_block], the rules that a later [add_rules_from_list]
    compiles are the rules of the last rule block of the engine. *)
Theorem registered_block_sees_later_rules (rule_list : list string)
    (compiled : list Rule) (s : FIS) :
  Forall2
    (fun rule r =>
       Rc rule
         (set_rule_blocks
            (rule_blocks (engine s) ++ [Some (length (store s))])
            (engine s)) = Ok r)
    rule_list compiled ->
  exists l,
    last
      (rule_blocks
         (engine
            (run_calls Rc P
               [CreateRuleBlock rule_name rule_description enabled_ cj dj
                  im ac initial;
                AddRuleBlock; AddRulesFromList rule_list] s))) =
      Some (Some l) /\
    rules_at
      (run_calls Rc P
         [CreateRuleBlock rule_name rule_description enabled_ cj dj im ac
            initial;
          AddRuleBlock; AddRulesFromList rule_list] s) l =
      Some compiled.
Proof using Type.
  intros Hall. exists (length (store s)). simpl.
  unfold create_rule_block. simpl.
  set (block := mkRuleBlock rule_name rule_description enabled_ cj dj im ac
                  (default [] initial)).
  match goal with
  | |- context [add_rules_from_list Rc rule_list ?s1] =>
      rewrite (add_rules_from_list_replaces Rc rule_list compiled s1
                 (length (store s)) block)
  end; simpl; try done.
  - split; [by rewrite last_snoc|].
    unfold rules_at. simpl. rewrite list_lookup_insert_eq; [done|].
    rewrite length_app. simpl. lia.
  - by rewrite lookup_app_r, Nat.sub_diag.
Qed.

(** X19: a rule block made by a later [create_rule_block] is not known
    to the engine: whatever [add_rules_from_list] then does, compiling
    everything or failing half-way, the rule blocks the engine already
    holds keep their rules and the engine keeps its list of rule
    blocks. *)
Theorem unregistered_block_rules_not_in_engine (rule_list : list string)
    (s : FIS) (l : loc) :
  references_allocated s -> Some l ∈ rule_blocks (engine s) ->
  rule_blocks
    (engine
       (run_calls Rc P
          [CreateRuleBlock rule_name rule_description enabled_ cj dj im ac
             initial;
           AddRulesFromList rule_list] s)) = rule_blocks (engine s) /\
  rules_at
    (run_calls Rc P
       [CreateRuleBlock rule_name rule_description enabled_ cj dj im ac
          initial;
        AddRulesFromList rule_list] s) l = rules_at s l.
Proof using Type.
  intros [_ Hwf] Hl. apply Hwf in Hl. simpl. unfold create_rule_block.
  simpl.
  match goal with
  | |- context [add_rules_from_list Rc rule_list ?s1] =>
      destruct (only_current_rules_add_rules Rc rule_list s1)
        as (He & _ & _ & _ & Hs)
  end.
  simpl in *. rewrite He. split; [done|].
  unfold rules_at. rewrite Hs.
  - by rewrite lookup_app_l.
  - intros [= E]. lia.
Qed.
End Sharing.

Lemma registered_block_sees_later_rules_witness :
  Forall2
    (fun rule r =>
       demo_Rule_create rule
         (set_rule_blocks
            (rule_blocks (engine demo_session) ++
             [Some (length (store demo_session))])
            (engine demo_session)) = Ok r)
    ["if x is low then z is high"] [mkRule "if x is low then z is high"] /\
  exists l,
    last
      (rule_blocks
         (engine
            (run_calls demo_Rule_create demo_process
               [CreateRuleBlock "" "" true (Some Minimum) (Some Maximum)
                  (Some AlgebraicProduct) (Some General) None;
                AddRuleBlock;
                AddRulesFromList ["if x is low then z is high"]]
               demo_session))) = Some (Some l) /\
    rules_at
      (run_calls demo_Rule_create demo_process
         [CreateRuleBlock "" "" true (Some Minimum) (Some Maximum)
            (Some AlgebraicProduct) (Some General) None;
          AddRuleBlock; AddRulesFromList ["if x is low then z is high"]]
         demo_session) l = Some [mkRule "if x is low then z is high"].
Proof.
  assert (Hall : Forall2
    (fun rule r =>
       demo_Rule_create rule
         (set_rule_blocks
            (rule_blocks (engine demo_session) ++
             [Some (length (store demo_session))])
            (engine demo_session)) = Ok r)
    ["if x is low then z is high"] [mkRule "if x is low then z is high"])
    by (repeat constructor).
  split; [exact Hall|].
  exact (registered_block_sees_later_rules demo_Rule_create demo_process
           "" "" true (Some Minimum) (Some Maximum) (Some AlgebraicProduct)
           (Some General) None _ _ demo_session Hall).
Defined.

Lemma session_with_rule_references : references_allocated session_with_rule.
Proof.
  split.
  - intros l Hl. injection Hl as Hl. subst l. simpl. lia.
  - intros l Hl. apply list_elem_of_singleton in Hl. injection Hl as Hl.
    subst l. simpl. lia.
Qed.

Lemma unregistered_block_rules_not_in_engine_witness :
  (references_allocated session_with_rule /\
   Some 0%nat ∈ rule_blocks (engine session_with_rule)) /\
  rule_blocks
    (engine
       (run_calls demo_Rule_create demo_process
          [CreateRuleBlock "second" "" true (Some Minimum) (Some Maximum)
             (Some AlgebraicProduct) (Some General) None;
           AddRulesFromList ["if y is low then z is low"; "y is low"]]
          session_with_rule)) = rule_blocks (engine session_with_rule) /\
  rules_at
    (run_calls demo_Rule_create demo_process
       [CreateRuleBlock "second" "" true (Some Minimum) (Some Maximum)
          (Some AlgebraicProduct) (Some General) None;
        AddRulesFromList ["if y is low then z is low"; "y is low"]]
       session_with_rule) 0%nat =
    Some [mkRule "if x is low then z is high"].
Proof.
  assert (Hin : Some 0%nat ∈ rule_blocks (engine session_with_rule))
    by (simpl; left).
  split; [split; [exact session_with_rule_references|exact Hin]|].
  exact (unregistered_block_rules_not_in_engine demo_Rule_create demo_process
           "second" "" true (Some Minimum) (Some Maximum)
           (Some AlgebraicProduct) (Some General) None
           ["if y is low then z is low"; "y is low"] session_with_rule 0%nat
           session_with_rule_references Hin).
Defined.

(** ** One inference call *)

(** X20: a call of [inference] that raises, at whatever point, leaves
    the [output] attribute with the value it had before the call; the
    session's rule block and the rules of all rule blocks are untouched
    by [inference] in any case. *)
Theorem inference_failure_keeps_output (P : Process) (inputs : list Q)
    (s s' : FIS) (e : exn) :
  inference P inputs s = (s', Raise e) ->
  output s' = output s /\ rule_block s' = rule_block s /\ store s' = store s.
Proof.
  intros H.
  pose proof (keeps_blocks_inference P inputs s) as Hk. rewrite H in Hk.
  simpl in Hk. injection Hk as -> ->. split; [|done].
  unfold inference, get_input_variable_names in H.
  unfold bind at 1 2 in H. unfold get at 1 in H. unfold ret at 1 in H.
  unfold bind at 1 in H.
  pose proof (keeps_blocks_bind_inputs
                (map name (input_variables (engine s))) inputs 0 s) as Hb.
  destruct (bind_inputs _ 0 inputs s) as [s1 [[]|e1]]; simpl in Hb.
  2:{ injection H as <- _. by injection Hb as _ _ ->. }
  injection Hb as _ _ Ho1.
  unfold bind at 1 in H.
  pose proof (keeps_blocks_call_process P s1) as Hp.
  destruct (call_process P s1) as [s2 [[]|e2]]; simpl in Hp.
  2:{ injection H as <- _. injection Hp as _ _ ->. done. }
  injection Hp as _ _ Ho2.
  unfold get_output_variable_names in H. unfold_monad.
  destruct (output_variables (engine s2)) as [|v vs] eqn:Ev; simpl in H.
  - injection H as <- _. congruence.
  - rewrite Ev, find_output_first in H. discriminate.
Qed.

Lemma inference_failure_keeps_output_witness :
  inference demo_process [3; 4; 5] demo_session =
    (with_inputs [3; 4; 5] demo_session, Raise IndexError) /\
  output (with_inputs [3; 4; 5] demo_session) = output demo_session /\
  rule_block (with_inputs [3; 4; 5] demo_session) = rule_block demo_session /\
  store (with_inputs [3; 4; 5] demo_session) = store demo_session.
Proof.
  split; [reflexivity|].
  exact (inference_failure_keeps_output demo_process [3; 4; 5] demo_session
           (with_inputs [3; 4; 5] demo_session) IndexError eq_refl).
Defined.

(** X21: one call of [inference] with no more values than input
    variables (of distinct names) assigns the values position by
    position, runs the engine's evaluation once on the session so
    assigned, and then: if the evaluation raised, raises the same and
    leaves [output] alone; if the engine holds no output variable,
    raises [IndexError]; otherwise stores in [output] the value of the
    first output variable, whatever other output variables there are. *)
Theorem inference_single_pass (P : Process) (inputs : list Q) (s : FIS)
    (e : Engine) (r : Result unit) :
  NoDup (map name (input_variables (engine s))) ->
  (length inputs <= length (input_variables (engine s)))%nat ->
  P (store s) (engine (with_inputs inputs s)) = (e, r) ->
  inference P inputs s =
  match r with
  | Raise x => (set_engine e (with_inputs inputs s), Raise x)
  | Ok _ =>
      match output_variables e with
      | [] => (set_engine e (with_inputs inputs s), Raise IndexError)
      | v :: _ =>
          (set_output (value v) (set_engine e (with_inputs inputs s)), Ok tt)
      end
  end.
Proof.
  intros Hnd Hlen HP.
  pose proof (bind_inputs_spec inputs [] (input_variables (engine s)) s
                eq_refl Hnd) as Hb.
  simpl in Hb. fold (with_inputs inputs s) in Hb.
  apply Nat.leb_le in Hlen. rewrite Hlen in Hb.
  unfold inference, get_input_variable_names.
  unfold bind at 1 2. unfold get at 1. unfold ret at 1.
  unfold bind at 1. rewrite Hb.
  unfold bind at 1. unfold call_process at 1.
  change (store (with_inputs inputs s)) with (store s). rewrite HP.
  destruct r as [[]|x]; [|done].
  unfold get_output_variable_names. unfold_monad.
  destruct (output_variables e) as [|v vs] eqn:Ev; simpl; [done|].
  by rewrite ?Ev, ?find_output_first.
Qed.

Lemma inference_single_pass_witness :
  (NoDup (map name (input_variables (engine demo_session))) /\
   (length [3; 4] <= length (input_variables (engine demo_session)))%nat /\
   demo_process (store demo_session)
     (engine (with_inputs [3; 4] demo_session)) =
     (fst (demo_process (store demo_session)
             (engine (with_inputs [3; 4] demo_session))), Ok tt)) /\
  output (fst (inference demo_process [3; 4] demo_session)) = Some 3.
Proof.
  split; [split; [exact demo_session_names|split; [simpl; lia|reflexivity]]|].
  rewrite (inference_single_pass demo_process [3; 4] demo_session _ (Ok tt)
             demo_session_names ltac:(simpl; lia) eq_refl).
  reflexivity.
Defined.

(** * Further properties of the synthesizers *)

Section PySynthesizers.
Context {num : Type} `{Py.Arith num}.

Lemma py_term_names (n : nat) (lo hi step ratio ov : num) (i : nat)
    (label : string) (t : Py.Term num) :
  Py.triangular_term n lo hi step ov i label = Ok t \/
  Py.trapezoid_term n lo hi step ratio ov i label = Ok t \/
  Py.gaussian_term n lo hi step ov i label = Ok t ->
  Py.term_name t = label.
Proof using Type.
  unfold Py.triangular_term, Py.trapezoid_term, Py.gaussian_term.
  destruct (Nat.eqb i 0); [|destruct (Nat.eqb i (n - 1))];
    intros [Ht|[Ht|Ht]]; split_ops; done.
Qed.

Lemma mapM_index_names (f : nat -> string -> Result (Py.Term num))
    (labels : list string) (ts : list (Py.Term num)) :
  (forall i l t, f i l = Ok t -> Py.term_name t = l) ->
  Py.mapM_index f 0 labels = Ok ts ->
  map Py.term_name ts = labels.
Proof using Type.
  intros Hf Hts. destruct (mapM_index_lookup _ _ _ _ Hts) as [Hlen Hall].
  apply list_eq. intros i. rewrite list_lookup_fmap.
  destruct (labels !! i) as [l|] eqn:El.
  - destruct (Hall i l El) as (t & Et & ->). simpl. f_equal. by eapply Hf.
  - apply lookup_ge_None in El.
    rewrite (proj2 (lookup_ge_None ts i)); [done|lia].
Qed.

(** X1: whenever a synthesizer returns, it returns one term per label,
    named by the labels in their order. *)
Theorem synthesized_terms_carry_the_labels (labels : list string)
    (lo hi ratio ov : num) (ts : list (Py.Term num)) :
  Py._create_triangular_mf labels lo hi ov = Ok ts \/
  Py._create_trapezoid_mf labels lo hi ratio ov = Ok ts \/
  Py._create_gaussian_mf labels lo hi ov = Ok ts ->
  map Py.term_name ts = labels.
Proof using Type.
  unfold Py._create_triangular_mf, Py._create_trapezoid_mf,
    Py._create_gaussian_mf.
  unfold Result_bind at 1 3 5.
  destruct (Py.lift2 Py.num_sub (Py.val hi) (Py.val lo)) as [range|e];
    [|by intros [|[|]]].
  unfold Result_bind.
  destruct (Py.lift2 Py.num_truediv (Py.val range) _) as [step|e];
    [|by intros [|[|]]].
  intros [Hts|[Hts|Hts]]; (eapply mapM_index_names; [|exact Hts]);
    intros i l t Ht;
    apply (py_term_names (length labels) lo hi step ratio ov i l t).
  - by left.
  - by right; left.
  - by right; right.
Qed.

(** X2: on an empty label sequence no synthesizer returns: once the
    width of the universe has been computed, the division by the
    number of labels raises [ZeroDivisionError]. *)
Theorem no_label_no_terms (lo hi ratio ov range : num) :
  Py.num_sub hi lo = Ok range ->
  Py._create_triangular_mf [] lo hi ov = Raise ZeroDivisionError /\
  Py._create_trapezoid_mf [] lo hi ratio ov = Raise ZeroDivisionError /\
  Py._create_gaussian_mf [] lo hi ov = Raise ZeroDivisionError.
Proof using Type.
  intros Hr.
  unfold Py._create_triangular_mf, Py._create_trapezoid_mf,
    Py._create_gaussian_mf, Py.lift2, Py.val, Py.int, Result_bind.
  simpl. rewrite Hr. by rewrite Py.num_truediv_zero.
Qed.

Lemma py_feet_shared (n : nat) (lo hi step ratio ov : num) (i : nat)
    (label : string) (t z : Py.Term num) :
  Py.triangular_term n lo hi step ov i label = Ok t ->
  Py.trapezoid_term n lo hi step ratio ov i label = Ok z ->
  Py.feet z = Py.feet t.
Proof using Type.
  unfold Py.triangular_term, Py.trapezoid_term.
  destruct (Nat.eqb i 0); [|destruct (Nat.eqb i (n - 1))];
    intros Ht Hz; split_ops; done.
Qed.

(** X24: when the triangular and the trapezoid synthesizer both return
    on the same labels, universe and overlap, the trapezoid of every
    label stands on the very feet of the label's triangle, whatever the
    ratio. *)
Theorem trapezoid_on_triangle_feet (labels : list string)
    (lo hi ratio ov : num) (ts zs : list (Py.Term num)) :
  Py._create_triangular_mf labels lo hi ov = Ok ts ->
  Py._create_trapezoid_mf labels lo hi ratio ov = Ok zs ->
  map Py.feet zs = map Py.feet ts.
Proof using Type.
  unfold Py._create_triangular_mf, Py._create_trapezoid_mf.
  unfold Result_bind at 1 3.
  destruct (Py.lift2 Py.num_sub (Py.val hi) (Py.val lo)) as [range|e];
    [|done].
  unfold Result_bind.
  destruct (Py.lift2 Py.num_truediv (Py.val range) _) as [step|e]; [|done].
  intros Hts Hzs.
  destruct (mapM_index_lookup _ _ _ _ Hts) as [Hlen Hall].
  destruct (mapM_index_lookup _ _ _ _ Hzs) as [Hlen' Hall'].
  apply list_eq. intros i. rewrite !list_lookup_fmap.
  destruct (labels !! i) as [l|] eqn:El.
  - destruct (Hall i l El) as (t & Et & ->).
    destruct (Hall' i l El) as (z & Ez & ->). simpl. f_equal.
    by eapply py_feet_shared.
  - apply lookup_ge_None in El.
    rewrite (proj2 (lookup_ge_None ts i)) by lia.
    by rewrite (proj2 (lookup_ge_None zs i)) by lia.
Qed.

(** X23: the first and the last label are anchored to the universe:
    the first triangle has its left foot and its peak at the minimum
    and the first trapezoid its left foot and left shoulder; of two or
    more labels, the last triangle has its peak and right foot at the
    maximum and the last trapezoid its right shoulder and right foot.
    These are the argument values themselves, untouched by any
    arithmetic. *)
Theorem boundary_terms_anchored (labels : list string)
    (lo hi ratio ov : num) (ts zs : list (Py.Term num)) :
  Py._create_triangular_mf labels lo hi ov = Ok ts ->
  Py._create_trapezoid_mf labels lo hi ratio ov = Ok zs ->
  (exists l c z_c z_d,
     ts !! 0%nat = Some (Py.Triangle l lo lo c) /\
     zs !! 0%nat = Some (Py.Trapezoid l lo lo z_c z_d)) /\
  ((1 < length labels)%nat ->
   exists l a z_a z_b,
     ts !! (length labels - 1)%nat = Some (Py.Triangle l a hi hi) /\
     zs !! (length labels - 1)%nat = Some (Py.Trapezoid l z_a z_b hi hi)).
Proof using Type.
  intros Hts Hzs.
  assert (Hne : labels <> []).
  { intros ->. revert Hts.
    unfold Py._create_triangular_mf, Py.lift2, Py.val, Py.int, Result_bind.
    simpl. destruct (Py.num_sub hi lo); [|done].
    by rewrite Py.num_truediv_zero. }
  revert Hts Hzs.
  unfold Py._create_triangular_mf, Py._create_trapezoid_mf.
  unfold Result_bind at 1 3.
  destruct (Py.lift2 Py.num_sub (Py.val hi) (Py.val lo)) as [range|e];
    [|done].
  unfold Result_bind.
  destruct (Py.lift2 Py.num_truediv (Py.val range) _) as [step|e]; [|done].
  intros Hts Hzs.
  destruct (mapM_index_lookup _ _ _ _ Hts) as [Hlen Hall].
  destruct (mapM_index_lookup _ _ _ _ Hzs) as [Hlen' Hall'].
  split.
  - destruct labels as [|l labels]; [done|].
    destruct (Hall 0%nat l eq_refl) as (t & Et & Ht).
    destruct (Hall' 0%nat l eq_refl) as (z & Ez & Hz).
    simpl in Et, Ez. unfold Py.triangular_term in Et.
    unfold Py.trapezoid_term in Ez. simpl in Et, Ez.
    split_ops. by eexists _, _, _, _.
  - intros Hn.
    destruct (lookup_lt_is_Some_2 labels (length labels - 1))
      as [l El]; [lia|].
    destruct (Hall _ l El) as (t & Et & Ht).
    destruct (Hall' _ l El) as (z & Ez & Hz).
    simpl in Et, Ez. unfold Py.triangular_term in Et.
    unfold Py.trapezoid_term in Ez.
    destruct (Nat.eqb_spec (length labels - 1) 0) as [E0|_]; [lia|].
    rewrite Nat.eqb_refl in Et, Ez.
    split_ops. by eexists _, _, _, _.
Qed.
End PySynthesizers.

Lemma synthesized_terms_carry_the_labels_witness :
  exists ts,
    (Py._create_triangular_mf ["cold"; "mild"; "hot"] (Py.PyInt (-5))
       (Py.PyInt 40) (Py.PyFloat (Py.float_of_Z 1)) = Ok ts \/
     Py._create_trapezoid_mf ["cold"; "mild"; "hot"] (Py.PyInt (-5))
       (Py.PyInt 40) (Py.PyInt 1) (Py.PyFloat (Py.float_of_Z 1)) = Ok ts \/
     Py._create_gaussian_mf ["cold"; "mild"; "hot"] (Py.PyInt (-5))
       (Py.PyInt 40) (Py.PyFloat (Py.float_of_Z 1)) = Ok ts) /\
    map Py.term_name ts = ["cold"; "mild"; "hot"].
Proof.
  eassert (E : Py._create_gaussian_mf ["cold"; "mild"; "hot"] (Py.PyInt (-5))
                 (Py.PyInt 40) (Py.PyFloat (Py.float_of_Z 1)) = Ok _)
    by (vm_compute; reflexivity).
  eexists. split; [right; right; exact E|].
  exact (synthesized_terms_carry_the_labels ["cold"; "mild"; "hot"]
           (Py.PyInt (-5)) (Py.PyInt 40) (Py.PyInt 1)
           (Py.PyFloat (Py.float_of_Z 1)) _ (or_intror (or_intror E))).
Defined.

Lemma no_label_no_terms_witness :
  Py.num_sub (Py.PyInt 1) (Py.PyInt 0) = Ok (Py.PyInt 1) /\
  Py._create_triangular_mf [] (Py.PyInt 0) (Py.PyInt 1) (Py.PyInt 0) =
    Raise ZeroDivisionError /\
  Py._create_trapezoid_mf [] (Py.PyInt 0) (Py.PyInt 1)
    (Py.PyFloat (Py.float_of_Z 1)) (Py.PyInt 0) = Raise ZeroDivisionError /\
  Py._create_gaussian_mf [] (Py.PyInt 0) (Py.PyInt 1) (Py.PyInt 0) =
    Raise ZeroDivisionError.
Proof.
  split; [reflexivity|].
  exact (no_label_no_terms (Py.PyInt 0) (Py.PyInt 1)
           (Py.PyFloat (Py.float_of_Z 1)) (Py.PyInt 0) (Py.PyInt 1) eq_refl).
Defined.

Lemma trapezoid_on_triangle_feet_witness :
  exists ts zs,
    Py._create_triangular_mf ["low"; "average"; "high"] (Py.PyInt 0)
      (Py.PyInt 100) (Py.PyInt 0) = Ok ts /\
    Py._create_trapezoid_mf ["low"; "average"; "high"] (Py.PyInt 0)
      (Py.PyInt 100) (Py.PyInt 1) (Py.PyInt 0) = Ok zs /\
    map Py.feet zs = map Py.feet ts.
Proof.
  eassert (Et : Py._create_triangular_mf ["low"; "average"; "high"]
                  (Py.PyInt 0) (Py.PyInt 100) (Py.PyInt 0) = Ok _)
    by (vm_compute; reflexivity).
  eassert (Ez : Py._create_trapezoid_mf ["low"; "average"; "high"]
                  (Py.PyInt 0) (Py.PyInt 100) (Py.PyInt 1) (Py.PyInt 0) =
                Ok _) by (vm_compute; reflexivity).
  eexists _, _. split; [exact Et|]. split; [exact Ez|].
  exact (trapezoid_on_triangle_feet _ _ _ _ _ _ _ Et Ez).
Defined.

Lemma boundary_terms_anchored_witness :
  exists ts zs,
    Py._create_triangular_mf ["low"; "average"; "high"] (Py.PyInt 0)
      (Py.PyInt 100) (Py.PyInt 0) = Ok ts /\
    Py._create_trapezoid_mf ["low"; "average"; "high"] (Py.PyInt 0)
      (Py.PyInt 100) (Py.PyInt 1) (Py.PyInt 0) = Ok zs /\
    (exists l c z_c z_d,
       ts !! 0%nat = Some (Py.Triangle l (Py.PyInt 0) (Py.PyInt 0) c) /\
       zs !! 0%nat =
         Some (Py.Trapezoid l (Py.PyInt 0) (Py.PyInt 0) z_c z_d)) /\
    exists l a z_a z_b,
      ts !! 2%nat = Some (Py.Triangle l a (Py.PyInt 100) (Py.PyInt 100)) /\
      zs !! 2%nat =
        Some (Py.Trapezoid l z_a z_b (Py.PyInt 100) (Py.PyInt 100)).
Proof.
  eassert (Et : Py._create_triangular_mf ["low"; "average"; "high"]
                  (Py.PyInt 0) (Py.PyInt 100) (Py.PyInt 0) = Ok _)
    by (vm_compute; reflexivity).
  eassert (Ez : Py._create_trapezoid_mf ["low"; "average"; "high"]
                  (Py.PyInt 0) (Py.PyInt 100) (Py.PyInt 1) (Py.PyInt 0) =
                Ok _) by (vm_compute; reflexivity).
  destruct (boundary_terms_anchored _ _ _ _ _ _ _ Et Ez) as [Hfirst Hlast].
  eexists _, _. split; [exact Et|]. split; [exact Ez|].
  split; [exact Hfirst|]. apply Hlast. simpl. lia.
Defined.
